(** * fusetree: node types of a user-space filesystem tree

    A shallow embedding of [fusetree/core.py] (the [FileHandle] constructor)
    and of [fusetree/nodetypes.py] (the streaming file [GeneratorFile], the
    in-memory directory [DictDir] and the buffered file [BlobFile]), with the
    properties of the specification stated over it.

    Python objects that are mutated in place and reached through several
    references live in an explicit store; methods are computations in a small
    state-and-exception monad.  Python [int]s are [Z]; [bytes] are lists of
    [byte]; a [dict] is an association list, because Python dictionaries
    iterate in insertion order. *)

From Stdlib Require Import ZArith List Lia Bool Strings.Byte.
From stdpp Require Import base list strings.
Import ListNotations.

Local Open Scope Z_scope.

(** ** Python values shared by all node types *)

Definition bytes := list Byte.byte.

(** [len(b)] as a Python [int]. *)
Definition len {A : Type} (l : list A) : Z := Z.of_nat (length l).

(** [b[i:j]] for indices [0 <= i] and [0 <= j]; Python clamps both ends to
    the length of [b], as [drop] and [take] do. *)
Definition slice {A : Type} (b : list A) (i j : nat) : list A :=
  take (j - i) (drop i b).

(** The exceptions that the modelled methods can raise. *)
Inductive exn : Type :=
| FuseOSError (code : Z)            (* fuse.FuseOSError(code) *)
| AttributeError (obj attr : string) (* obj has no attribute attr *)
| NameError (name : string)          (* name is not defined *)
| KeyError (key : string)            (* del d[key], d[key] on a missing key *)
| TypeError (kw : string)            (* unexpected keyword argument kw *)
| ValueError (what : string).        (* negative seek or truncate size *)

Inductive result (A : Type) : Type :=
| Ok (a : A)
| Raise (e : exn).
Arguments Ok {A} a.
Arguments Raise {A} e.

(** The names that Python's standard [errno] module defines, as far as the
    code reads them, with their Linux values.  [nodetypes.py] gets [errno]
    (and [fuse]) through [from .core import *].  The module defines [EPERM]
    and [EACCES]; it defines no [ENOPERM], so evaluating [errno.ENOPERM]
    raises [AttributeError] before [fuse.FuseOSError] is ever called. *)
Definition errno (attr : string) : option Z :=
  if String.eqb attr "EPERM" then Some 1
  else if String.eqb attr "ENOENT" then Some 2
  else if String.eqb attr "EIO" then Some 5
  else if String.eqb attr "EACCES" then Some 13
  else if String.eqb attr "ENOTDIR" then Some 20
  else if String.eqb attr "EINVAL" then Some 22
  else if String.eqb attr "ENOSYS" then Some 38
  else None.

Definition EPERM : Z := 1.
Definition ENOENT : Z := 2.
Definition EACCES : Z := 13.
Definition ENOSYS : Z := 38.

(** The exception that [raise fuse.FuseOSError(errno.<attr>)] raises. *)
Definition FuseOSError_of (attr : string) : exn :=
  match errno attr with
  | Some code => FuseOSError code
  | None => AttributeError "errno" attr
  end.

(** The error kinds of the specification, read off an exception. *)
Definition is_NotSupported (e : exn) : Prop := e = FuseOSError ENOSYS.
Definition is_PermissionDenied (e : exn) : Prop :=
  e = FuseOSError EPERM \/ e = FuseOSError EACCES.
Definition is_NotFound (e : exn) : Prop := e = FuseOSError ENOENT.

(** ** State and exception monad

    A method is a function from the store to the store it leaves and either
    a value or a raised exception; an exception keeps the mutations made
    before it. *)
Definition M (S A : Type) : Type := S -> S * result A.

Definition ret {S A : Type} (a : A) : M S A := fun s => (s, Ok a).
Definition raise {S A : Type} (e : exn) : M S A := fun s => (s, Raise e).
Definition bind {S A B : Type} (m : M S A) (k : A -> M S B) : M S B :=
  fun s => match m s with
           | (s', Ok a) => k a s'
           | (s', Raise e) => (s', Raise e)
           end.
Definition get {S : Type} : M S S := fun s => (s, Ok s).
Definition modify {S : Type} (f : S -> S) : M S unit := fun s => (f s, Ok tt).

(** [try: m finally: f]: [f] runs whether or not [m] raised; an exception of
    [f] replaces the outcome of [m]. *)
Definition try_finally {S A : Type} (m : M S A) (f : M S unit) : M S A :=
  fun s => match m s with
           | (s', r) => match f s' with
                        | (s'', Ok _) => (s'', r)
                        | (s'', Raise e) => (s'', Raise e)
                        end
           end.

Notation "'let*' x ':=' m 'in' k" := (bind m (fun x => k))
  (at level 10, x name, m at level 100, k at level 200).

(** ** core.py: FileHandle *)

(** The attributes that [FileHandle.__init__] assigns. *)
Record FileHandle (N : Type) : Type := mkFileHandle {
  fh_node : N;
  direct_io : bool
}.
Arguments mkFileHandle {N} _ _.
Arguments fh_node {N} _.
Arguments direct_io {N} _.

(** [def __init__(self, node = None, direct_io = False)]: the keyword
    parameters the constructor accepts besides the positional [node]. *)
Definition FileHandle_keywords : list string := ["direct_io"].

Definition kw_known (names : list string) (kv : string * bool) : bool :=
  existsb (String.eqb (fst kv)) names.

Definition kw_get (name : string) (kwargs : list (string * bool)) (default : bool) : bool :=
  match find (fun kv => String.eqb (fst kv) name) kwargs with
  | Some (_, v) => v
  | None => default
  end.

(** A call [FileHandle.__init__(node, **kwargs)]: a keyword that is not a
    parameter raises [TypeError]. *)
Definition FileHandle_init {N : Type} (node : N) (kwargs : list (string * bool))
  : result (FileHandle N) :=
  match find (fun kv => negb (kw_known FileHandle_keywords kv)) kwargs with
  | Some (kw, _) => Raise (TypeError kw)
  | None => Ok (mkFileHandle node (kw_get "direct_io" kwargs false))
  end.

(** ** nodetypes.py: GeneratorFile *)

Module GeneratorFile.
Section Streaming.

(** The chunks a producer yields and [types_conv.as_bytes], which is not
    part of the modelled files: it is taken as a parameter. *)
Variable Bytes_Like : Type.
Variable as_bytes : Bytes_Like -> bytes.

(** The node.  [generator] is the iterable; a finite producer is the list
    of the chunks it yields, and [iter] of it starts at the first chunk.  A
    producer that never ends or that raises is outside this model. *)
Record Node : Type := mkNode {
  mode : Z;
  generator : list Bytes_Like;
  min_read_len : Z
}.

(** [GeneratorFile.__init__(generator, mode, min_read_len)]. *)
Definition init (g : list Bytes_Like) (mode : Z) (min_read_len : Z) : Node :=
  mkNode (Z.land mode 511) g min_read_len.

(** The attributes that [Handle.__init__] assigns after the base class
    constructor: the iterator (the chunks not yet pulled), the current
    chunk ([None] once the producer is exhausted), the position in it (an
    [int] that starts at 0 and only grows by a positive [n] or is reset to
    0) and the threshold. *)
Record Cursor : Type := mkCursor {
  c_generator : list Bytes_Like;
  current_blob : option bytes;
  current_blob_position : nat;
  c_min_read_len : Z
}.

Definition Handle : Type := FileHandle Node * Cursor.

(** The cursor that [Handle.__init__] assigns for a new session. *)
Definition fresh_cursor (g : list Bytes_Like) (min_read_len : Z) : Cursor :=
  mkCursor g (Some []) 0 min_read_len.

(** [Handle.__init__(node, generator, min_read_len)]: first
    [super().__init__(node, direct_io=True, nonseekable=True)]. *)
Definition Handle_init (node : Node) (g : list Bytes_Like) (min_read_len : Z)
  : result Handle :=
  match FileHandle_init node [("direct_io", true); ("nonseekable", true)] with
  | Raise e => Raise e
  | Ok fh => Ok (fh, fresh_cursor g min_read_len)
  end.

(** [GeneratorFile.open(mode)]. *)
Definition open (self : Node) (mode : Z) : result Handle :=
  Handle_init self (generator self) (min_read_len self).

(** One pass through the body of the [while] loop of [Handle.read], up to
    the [min_read_len] test: [blob] is [self.current_blob]. *)
Definition read_body (size : Z) (c : Cursor) (blob : bytes) (r : bytes)
  : Cursor * bytes :=
  let n := Z.min (size - len r) (len blob - Z.of_nat (current_blob_position c)) in
  if 0 <? n then
    (mkCursor (c_generator c) (current_blob c)
              (current_blob_position c + Z.to_nat n) (c_min_read_len c),
     r ++ slice blob (current_blob_position c)
                (current_blob_position c + Z.to_nat n))
  else
    match c_generator c with
    | x :: g => (mkCursor g (Some (as_bytes x)) 0 (c_min_read_len c), r)
    | [] => (mkCursor [] None 0 (c_min_read_len c), r)   (* StopIteration *)
    end.

(** The [while] loop; [None] only when [fuel] passes do not reach the end
    of the loop. *)
Fixpoint read_loop (fuel : nat) (size : Z) (c : Cursor) (r : bytes)
  : option (Cursor * bytes) :=
  match current_blob c with
  | Some blob =>
      if len r <? size then
        match fuel with
        | O => None
        | S fuel' =>
            let '(c', r') := read_body size c blob r in
            if (0 <? c_min_read_len c') && (c_min_read_len c' <=? len r')
            then Some (c', r')                       (* break *)
            else read_loop fuel' size c' r'
        end
      else Some (c, r)
  | None => Some (c, r)
  end.

(** What is left to do for the loop: the bytes still wanted, the chunks
    still to pull, and the end of the stream still to be seen. *)
Definition todo (size : Z) (c : Cursor) (r : bytes) : nat :=
  Z.to_nat (size - len r) + length (c_generator c)
  + (match current_blob c with Some _ => 1 | None => 0 end).

(** A bound on the passes of the loop: every pass either appends at least
    one of the [size] requested bytes, or pulls one chunk, or ends the
    stream. *)
Definition read_fuel (size : Z) (c : Cursor) : nat :=
  Z.to_nat size + length (c_generator c) + 1.

(** [Handle.read(size, offset)]: the cursor after the call and the bytes
    returned. *)
Definition read (c : Cursor) (size offset : Z) : option (Cursor * bytes) :=
  read_loop (read_fuel size c) size c [].

(** Successive [read] calls, one per [(size, offset)] pair. *)
Fixpoint reads (c : Cursor) (calls : list (Z * Z)) : option (Cursor * list bytes) :=
  match calls with
  | [] => Some (c, [])
  | (size, offset) :: calls' =>
      match read c size offset with
      | None => None
      | Some (c', b) =>
          match reads c' calls' with
          | None => None
          | Some (c'', bs) => Some (c'', b :: bs)
          end
      end
  end.

(** The bytes that the session has still to deliver: the rest of the
    current chunk and the chunks not yet pulled; nothing once the end of the
    stream was seen. *)
Definition remaining (c : Cursor) : bytes :=
  match current_blob c with
  | Some blob =>
      drop (current_blob_position c) blob ++ concat (map as_bytes (c_generator c))
  | None => []
  end.

End Streaming.
End GeneratorFile.

(** ** nodetypes.py: BlobFile *)

Module BlobFile.

(** [io.BytesIO]: the content and the stream position.  The model is that
    of the buffer for offsets, sizes and buffer lengths that fit a C
    [ssize_t], as the length of every [bytes] object does: outside this
    range [io.BytesIO] raises [OverflowError], which the model does not
    have, and a statement that lets an offset or a size grow freely carries
    the range as a hypothesis. *)
Record BytesIO : Type := mkBytesIO {
  getvalue : bytes;
  tell : nat
}.

(** The largest and the smallest [ssize_t]: [2**63 - 1] and [-2**63]. *)
Definition ssize_max : Z := 9223372036854775807.
Definition ssize_min : Z := -9223372036854775808.

(** [buffer.seek(offset)]: a negative offset raises [ValueError]. *)
Definition seek (b : BytesIO) (offset : Z) : result BytesIO :=
  if offset <? 0 then Raise (ValueError "negative seek value")
  else Ok (mkBytesIO (getvalue b) (Z.to_nat offset)).

(** [buffer.read(size)]: the bytes from the position on, at most [size] of
    them, all of them when [size] is negative; the position moves past
    them. *)
Definition bio_read (b : BytesIO) (size : Z) : BytesIO * bytes :=
  let avail := (length (getvalue b) - tell b)%nat in
  let n := if size <? 0 then avail else Nat.min (Z.to_nat size) avail in
  (mkBytesIO (getvalue b) (tell b + n), take n (drop (tell b) (getvalue b))).

(** [buffer.write(d)]: [d] overwrites the content from the position on and
    extends it when it reaches past the end, after zero bytes that fill a
    gap between the end and the position; writing no bytes changes
    nothing. *)
Definition bio_write (b : BytesIO) (d : bytes) : BytesIO :=
  match d with
  | [] => b
  | _ =>
      let v := getvalue b in
      let p := tell b in
      mkBytesIO (take p v ++ replicate (p - length v) Byte.x00 ++ d
                   ++ drop (p + length d) v)
                (p + length d)
  end.

(** [buffer.truncate(size)]: cuts the content to [size] bytes when it is
    longer; the position stays. *)
Definition bio_truncate (b : BytesIO) (size : Z) : result BytesIO :=
  if size <? 0 then Raise (ValueError "negative size value")
  else Ok (mkBytesIO (take (Z.to_nat size) (getvalue b)) (tell b)).

(** [BlobFile.Handle]: the attributes it adds to [FileHandle].  [dirty] is
    [False], [True] or, after a flush, [None]. *)
Record Handle : Type := mkHandle {
  buffer : BytesIO;
  dirty : option bool;
  refs : Z
}.

(** [Handle.__init__(node, data)]. *)
Definition Handle_init (data : bytes) : Handle :=
  mkHandle (mkBytesIO data 0) (Some false) 0.

(** The node.  [shared_handle] is a reference to a handle object. *)
Record Node : Type := mkNode {
  mode : Z;
  rw : bool;
  data : bytes;
  shared_handle : option nat
}.

(** [BlobFile.__init__(data, mode, rw)]; [mode] is [None] or an [int]. *)
Definition init (data : bytes) (mode : option Z) (rw : bool) : Node :=
  let m := match mode with
           | Some m => m
           | None => if rw then 438 else 292      (* 0o666, 0o444 *)
           end in
  mkNode (Z.land m 511) rw data None.

(** One buffered file and the handle objects created for it.  A handle is
    reached through [node.shared_handle] and through every reference that
    [open] returned, so handles live in [handles] under their index.
    [saves] records the arguments of the calls of [save], oldest first; the
    code does not read it. *)
Record Store : Type := mkStore {
  node : Node;
  handles : list Handle;
  saves : list bytes
}.

Definition set_node (f : Node -> Node) (s : Store) : Store :=
  mkStore (f (node s)) (handles s) (saves s).
Definition set_data (d : bytes) (n : Node) : Node :=
  mkNode (mode n) (rw n) d (shared_handle n).
Definition set_shared_handle (h : option nat) (n : Node) : Node :=
  mkNode (mode n) (rw n) (data n) h.

(** Reading and updating the handle object behind a reference.  A
    reference that a Python program holds always leads to its object; for a
    location without one the model raises. *)
Definition get_handle (h : nat) : M Store Handle :=
  fun s => match handles s !! h with
           | Some x => (s, Ok x)
           | None => (s, Raise (ValueError "no such handle"))
           end.
Definition put (h : nat) (x : Handle) (s : Store) : Store :=
  mkStore (node s) (<[h := x]> (handles s)) (saves s).
Definition put_handle (h : nat) (x : Handle) : M Store unit :=
  fun s => (put h x s, Ok tt).
Definition new_handle (x : Handle) : M Store nat :=
  fun s => (mkStore (node s) (handles s ++ [x]) (saves s), Ok (length (handles s))).

Definition lift {A : Type} (r : result A) : M Store A :=
  fun s => (s, r).

(** [BlobFile.load()] and [BlobFile.save(data)]. *)
Definition load : M Store bytes :=
  let* s := get in ret (data (node s)).
Definition save (d : bytes) : M Store unit :=
  modify (fun s => mkStore (set_data d (node s)) (handles s) (saves s ++ [d])).

(** [BlobFile.open(mode)]. *)
Definition open (mode : Z) : M Store nat :=
  let* s := get in
  let* _ := match shared_handle (node s) with
            | None =>
                let* d := load in
                let* h := new_handle (Handle_init d) in
                modify (set_node (set_shared_handle (Some h)))
            | Some _ => ret tt
            end in
  let* s := get in
  match shared_handle (node s) with
  | None => raise (AttributeError "NoneType" "refs")
  | Some h =>
      let* x := get_handle h in
      let* _ := put_handle h (mkHandle (buffer x) (dirty x) (refs x + 1)) in
      ret h
  end.

(** [Handle.read(size, offset)]. *)
Definition read (h : nat) (size offset : Z) : M Store bytes :=
  let* x := get_handle h in
  let* b := lift (seek (buffer x) offset) in
  let* _ := put_handle h (mkHandle b (dirty x) (refs x)) in
  let '(b', out) := bio_read b size in
  let* _ := put_handle h (mkHandle b' (dirty x) (refs x)) in
  ret out.

(** [Handle.write(buffer, offset)]. *)
Definition write (h : nat) (d : bytes) (offset : Z) : M Store Z :=
  let* s := get in
  if negb (rw (node s)) then raise (FuseOSError_of "ENOPERM") else
  let* x := get_handle h in
  let* _ := put_handle h (mkHandle (buffer x) (Some true) (refs x)) in
  let* b := lift (seek (buffer x) offset) in
  let* _ := put_handle h (mkHandle (bio_write b d) (Some true) (refs x)) in
  ret (len d).

(** [Handle.truncate(size)]. *)
Definition Handle_truncate (h : nat) (size : Z) : M Store unit :=
  let* s := get in
  if negb (rw (node s)) then raise (FuseOSError_of "ENOPERM") else
  let* x := get_handle h in
  let* _ := put_handle h (mkHandle (buffer x) (Some true) (refs x)) in
  let* b := lift (bio_truncate (buffer x) size) in
  put_handle h (mkHandle b (Some true) (refs x)).

(** [Handle.flush()]. *)
Definition flush (h : nat) : M Store unit :=
  let* x := get_handle h in
  match dirty x with
  | Some true =>
      let* _ := save (getvalue (buffer x)) in
      put_handle h (mkHandle (buffer x) None (refs x))
  | _ => ret tt
  end.

(** [Handle.release()]. *)
Definition release (h : nat) : M Store unit :=
  let* x := get_handle h in
  let* _ := put_handle h (mkHandle (buffer x) (dirty x) (refs x - 1)) in
  if refs x - 1 =? 0 then
    let* _ := flush h in
    modify (set_node (set_shared_handle None))
  else ret tt.

(** [BlobFile.truncate(size)]: open, truncate and, in any case, release. *)
Definition truncate (size : Z) : M Store unit :=
  let* h := open 2 in                                   (* os.O_RDWR *)
  try_finally (Handle_truncate h size) (release h).

(** The size that [BlobFile.getattr()] reports. *)
Definition getattr_size : M Store Z :=
  let* s := get in
  match shared_handle (node s) with
  | Some h => let* x := get_handle h in ret (len (getvalue (buffer x)))
  | None => ret (len (data (node s)))
  end.

(** The number of open sessions: the reference count of the shared handle,
    and none when the node has no shared handle. *)
Definition session_count (s : Store) : Z :=
  match shared_handle (node s) with
  | Some h => match handles s !! h with
              | Some x => refs x
              | None => 0
              end
  | None => 0
  end.

(** What a session does between [open] and [release], through its handle
    or on the node. *)
Inductive op : Type :=
| Read (size offset : Z)
| Write (d : bytes) (offset : Z)
| Truncate (size : Z)            (* handle.truncate(size) *)
| NodeTruncate (size : Z)        (* node.truncate(size) *)
| Getattr.

(** The store after one operation; the caller sees its value or its
    exception and goes on. *)
Definition run_op (h : nat) (o : op) (s : Store) : Store :=
  match o with
  | Read size offset => fst (read h size offset s)
  | Write d offset => fst (write h d offset s)
  | Truncate size => fst (Handle_truncate h size s)
  | NodeTruncate size => fst (truncate size s)
  | Getattr => fst (getattr_size s)
  end.

Definition run_ops (h : nat) (ops : list op) (s : Store) : Store :=
  fold_left (fun s o => run_op h o s) ops s.

(** [n] calls of [open], and [n] calls of [release] on the handle [h]. *)
Fixpoint opens (n : nat) (s : Store) : Store :=
  match n with
  | O => s
  | S n' => opens n' (fst (open 0 s))
  end.

Fixpoint releases (h : nat) (n : nat) (s : Store) : Store :=
  match n with
  | O => s
  | S n' => releases h n' (fst (release h s))
  end.

(** What the operations on the handle [h] can see of a store: the node,
    the handle object and the record of the saves. *)
Definition obs (h : nat) (s : Store) : Node * option Handle * list bytes :=
  (node s, handles s !! h, saves s).

(** The shared handle, when the node has one, is an object of the
    store. *)
Definition wf (s : Store) : Prop :=
  match shared_handle (node s) with
  | Some h => is_Some (handles s !! h)
  | None => True
  end.

(** The shared handle exists exactly when sessions are open. *)
Definition coherent (s : Store) : Prop :=
  is_Some (shared_handle (node s)) <-> 0 < session_count s.

(** The store has [n] open sessions, and the shared handle exists exactly
    when it should. *)
Definition counts (n : Z) (s : Store) : Prop :=
  session_count s = n /\ coherent s.

(** Two sessions: both open, the first writes [d] at [offset], the second
    reads [size] bytes at [offset']. *)
Definition write_then_read (d : bytes) (offset size offset' : Z)
  : M Store (nat * nat * bytes) :=
  let* a := open 2 in
  let* b := open 0 in
  let* _ := write a d offset in
  let* out := read b size offset' in
  ret (a, b, out).

(** An operation that marks the buffer dirty when it gets that far. *)
Definition modifies (o : op) : bool :=
  match o with
  | Write _ _ | Truncate _ | NodeTruncate _ => true
  | _ => false
  end.

End BlobFile.

(** ** Python dictionaries with string keys

    A [dict] keeps its keys in the order of their first insertion: assigning
    to a key that is present replaces the value in place, a new key goes to
    the end. *)
Module Dict.
Section Dict.
Context {V : Type}.

Definition t : Type := list (string * V).

(** [d.get(k, None)]. *)
Fixpoint get (k : string) (d : t) : option V :=
  match d with
  | [] => None
  | (k', v) :: d' => if String.eqb k' k then Some v else get k d'
  end.

(** [d[k] = v]. *)
Fixpoint set (k : string) (v : V) (d : t) : t :=
  match d with
  | [] => [(k, v)]
  | (k', v') :: d' =>
      if String.eqb k' k then (k', v) :: d' else (k', v') :: set k v d'
  end.

(** [del d[k]]; [None] stands for [KeyError]. *)
Fixpoint del (k : string) (d : t) : option t :=
  match d with
  | [] => None
  | (k', v) :: d' =>
      if String.eqb k' k then Some d'
      else match del k d' with
           | Some d'' => Some ((k', v) :: d'')
           | None => None
           end
  end.

(** [list(d.keys())]. *)
Definition keys (d : t) : list string := map fst d.

(** [k in d]. *)
Definition mem (k : string) (d : t) : bool :=
  match get k d with Some _ => true | None => false end.

End Dict.
Arguments t : clear implicits.
End Dict.

(** ** nodetypes.py: Symlink and DictDir *)

Module Symlink.

Record Node : Type := mkNode {
  mode : Z;
  link : string
}.

(** [Symlink.__init__(link, mode = 0o444)]. *)
Definition init (link : string) (mode : Z) : Node :=
  mkNode (Z.land mode 511) link.

End Symlink.

Module DictDir.

(** Nodes are objects; a directory maps names to references. *)
Abbreviation loc := nat.

(** [self.contents] is a dictionary object that the directory mutates in
    place and never rebinds; it is kept inside the directory object. *)
Record Node : Type := mkNode {
  mode : Z;
  rw : bool;
  contents : Dict.t loc
}.

(** [DictDir.__init__(contents, mode, rw)]; [mode] is [None] or an [int]. *)
Definition init (contents : Dict.t loc) (mode : option Z) (rw : bool) : Node :=
  let m := match mode with
           | Some m => m
           | None => if rw then 438 else 292      (* 0o666, 0o444 *)
           end in
  mkNode (Z.land m 511) rw contents.

(** The objects of the tree. *)
Inductive Object : Type :=
| Dir (d : Node)                      (* a DictDir *)
| Blob (f : BlobFile.Node)            (* a BlobFile *)
| Link (l : Symlink.Node)             (* a Symlink *)
| Other.                              (* a Node of any other class *)

Abbreviation Heap := (list Object).

(** [isinstance(o, DictDir)]. *)
Definition is_DictDir (o : Object) : bool :=
  match o with Dir _ => true | _ => false end.

(** The object behind a reference. *)
Definition deref (l : loc) : M Heap Object :=
  fun σ => match σ !! l with
           | Some o => (σ, Ok o)
           | None => (σ, Raise (ValueError "no such object"))
           end.

(** The attributes [rw] and [contents] of [self]. *)
Definition self_dir (self : loc) : M Heap Node :=
  let* o := deref self in
  match o with
  | Dir d => ret d
  | _ => raise (AttributeError "self" "contents")
  end.

(** A newly constructed object. *)
Definition new (o : Object) : M Heap loc :=
  fun σ => (σ ++ [o], Ok (length σ)).

(** [self.contents[name] = node]. *)
Definition setitem (self : loc) (name : string) (node : loc) : M Heap unit :=
  let* d := self_dir self in
  modify (fun σ => <[self := Dir (mkNode (mode d) (rw d) (Dict.set name node (contents d)))]> σ).

(** [self.contents[name]]. *)
Definition getitem (self : loc) (name : string) : M Heap loc :=
  let* d := self_dir self in
  match Dict.get name (contents d) with
  | Some n => ret n
  | None => raise (KeyError name)
  end.

(** [del self.contents[name]]. *)
Definition delitem (self : loc) (name : string) : M Heap unit :=
  let* d := self_dir self in
  match Dict.del name (contents d) with
  | Some c => modify (fun σ => <[self := Dir (mkNode (mode d) (rw d) c)]> σ)
  | None => raise (KeyError name)
  end.

(** Reading a name that is bound neither in the function nor in the
    module. *)
Definition unbound {A : Type} (name : string) : M Heap A :=
  raise (NameError name).

(** *** Read-only operations *)

(** [DictDir.lookup(name)]. *)
Definition lookup (self : loc) (name : string) : M Heap (option loc) :=
  let* d := self_dir self in
  ret (Dict.get name (contents d)).

(** [self.contents.keys()]: a view of the dictionary of a directory, not a
    copy of its keys. *)
Inductive KeysView : Type :=
| keys_of (dir : loc).

(** [DictDir.Handle]: the node and [items]. *)
Record Handle : Type := mkHandle {
  h_node : loc;
  items : KeysView
}.

(** [DictDir.opendir()]. *)
Definition opendir (self : loc) : M Heap Handle :=
  let* _ := self_dir self in
  ret (mkHandle self (keys_of self)).

(** [Handle.readdir()] run to its end, with no other call in between:
    the names that [for item in self.items] yields. *)
Definition readdir (h : Handle) : M Heap (list string) :=
  match items h with
  | keys_of dir =>
      let* d := self_dir dir in
      ret (Dict.keys (contents d))
  end.

(** *** Read-write operations *)

(** [DictDir.mknod(name, mode, dev)]. *)
Definition mknod (self : loc) (name : string) (mode dev : Z) : M Heap loc :=
  let* d := self_dir self in
  if negb (rw d) then raise (FuseOSError_of "ENOPERM") else
  if negb (dev =? 0) then raise (FuseOSError_of "ENOSYS") else
  let* new_file := new (Blob (BlobFile.init [] (Some mode) true)) in
  let* _ := setitem self name new_file in
  ret new_file.

(** [DictDir.mkdir(name, mode)]. *)
Definition mkdir (self : loc) (name : string) (mode : Z) : M Heap loc :=
  let* d := self_dir self in
  if negb (rw d) then raise (FuseOSError_of "ENOPERM") else
  let* new_dir := new (Dir (init [] (Some mode) true)) in
  let* _ := setitem self name new_dir in
  ret new_dir.

(** [DictDir.unlink(name)]. *)
Definition unlink (self : loc) (name : string) : M Heap unit :=
  let* d := self_dir self in
  if negb (rw d) then raise (FuseOSError_of "ENOPERM") else
  delitem self name.

(** [DictDir.rmdir(name)]. *)
Definition rmdir (self : loc) (name : string) : M Heap unit :=
  let* d := self_dir self in
  if negb (rw d) then raise (FuseOSError_of "ENOPERM") else
  delitem self name.

(** [DictDir.symlink(name, target)]; it returns nothing. *)
Definition symlink (self : loc) (name : string) (target : string) : M Heap unit :=
  let* d := self_dir self in
  if negb (rw d) then raise (FuseOSError_of "ENOPERM") else
  let* new_link := new (Link (Symlink.init target 292)) in
  setitem self name new_link.

(** [DictDir.rename(old_name, new_parent, new_name)].  Its last three
    lines read [name], which is neither a parameter nor a local nor a name
    of the module. *)
Definition rename (self : loc) (old_name : string) (new_parent : loc)
           (new_name : string) : M Heap unit :=
  let* p := deref new_parent in
  match p with
  | Dir np =>
      let* d := self_dir self in
      if negb (rw d) || negb (rw np) then raise (FuseOSError_of "ENOPERM") else
      let* name := unbound "name" in
      let* node := getitem self name in
      let* _ := delitem self name in
      setitem new_parent name node
  | _ => raise (FuseOSError_of "ENOSYS")
  end.

(** [DictDir.link(name, node)]; it returns nothing. *)
Definition link (self : loc) (name : string) (node : loc) : M Heap unit :=
  setitem self name node.

(** The mapping of the directory at [l]; [None] when [l] is no
    directory. *)
Definition mapping (σ : Heap) (l : loc) : option (Dict.t loc) :=
  match σ !! l with
  | Some (Dir d) => Some (contents d)
  | _ => None
  end.

(** A call fails with an error of kind [P]. *)
Definition fails_with {A : Type} (P : exn -> Prop) (out : Heap * result A) : Prop :=
  exists e, out.2 = Raise e /\ P e.

(** Between [σ] and [σ'] the entry [name] of the directory [self], which
    was there, has got the value [n]; the other entries, the order and the
    number of the names are as before. *)
Definition replaced (σ σ' : Heap) (self : loc) (name : string) (n : loc) : Prop :=
  exists c c',
    mapping σ self = Some c /\ mapping σ' self = Some c' /\
    Dict.mem name c = true /\
    Dict.get name c' = Some n /\
    (forall k, k <> name -> Dict.get k c' = Dict.get k c) /\
    Dict.keys c' = Dict.keys c /\
    length c' = length c.

(** Two [opendir] calls, each handle read to its end before the next
    call. *)
Definition opendir_twice (self : loc) : M Heap (list string * list string) :=
  let* h1 := opendir self in
  let* l1 := readdir h1 in
  let* h2 := opendir self in
  let* l2 := readdir h2 in
  ret (l1, l2).

(** The names that a new handle of the directory yields. *)
Definition listing (self : loc) : M Heap (list string) :=
  let* h := opendir self in
  readdir h.

(** Between [σ] and [σ'] the directory [self] has got the entry [name] for
    the node [n]: [lookup] finds it, finds the other names as before, and a
    name that was not there is listed after the others. *)
Definition added (σ σ' : Heap) (self : loc) (name : string) (n : loc) : Prop :=
  (lookup self name σ').2 = Ok (Some n) /\
  (forall k, k <> name -> (lookup self k σ').2 = (lookup self k σ).2) /\
  ((lookup self name σ).2 = Ok None ->
   exists ns, (listing self σ).2 = Ok ns /\ (listing self σ').2 = Ok (ns ++ [name])).

(** Between [σ] and [σ'] the directory [self] has lost the entry [name]:
    [lookup] does not find it, finds the other names as before, and the
    listing is the old one without the name. *)
Definition removed (σ σ' : Heap) (self : loc) (name : string) : Prop :=
  (lookup self name σ').2 = Ok None /\
  (forall k, k <> name -> (lookup self k σ').2 = (lookup self k σ).2) /\
  exists ns,
    (listing self σ).2 = Ok ns /\
    (listing self σ').2
    = Ok (List.filter (fun k => negb (String.eqb k name)) ns).

(** The names of every directory of the tree are unique. *)
Definition unique_names (σ : Heap) : Prop :=
  forall l d, σ !! l = Some (Dir d) -> NoDup (Dict.keys (contents d)).

(** A call of one of the mutating methods of a directory. *)
Inductive mutation : Type :=
| DoMknod (name : string) (mode dev : Z)
| DoMkdir (name : string) (mode : Z)
| DoUnlink (name : string)
| DoRmdir (name : string)
| DoSymlink (name target : string)
| DoRename (old_name : string) (new_parent : loc) (new_name : string)
| DoLink (name : string) (node : loc).

(** The store that a call leaves, and the exception it raised, if any. *)
Definition outcome {A : Type} (r : Heap * result A) : Heap * option exn :=
  (r.1, match r.2 with Ok _ => None | Raise e => Some e end).

Definition mutate (self : loc) (m : mutation) (σ : Heap) : Heap * option exn :=
  match m with
  | DoMknod name mode dev => outcome (mknod self name mode dev σ)
  | DoMkdir name mode => outcome (mkdir self name mode σ)
  | DoUnlink name => outcome (unlink self name σ)
  | DoRmdir name => outcome (rmdir self name σ)
  | DoSymlink name target => outcome (symlink self name target σ)
  | DoRename old_name new_parent new_name =>
      outcome (rename self old_name new_parent new_name σ)
  | DoLink name node => outcome (link self name node σ)
  end.

End DictDir.

(** ** nodetypes.py: getattr *)

Module Attr.

(** Modelled from the spec: the attribute record [Stat] of [types.py], which
    is not among the modelled files; of its fields the two that the [getattr]
    methods set, the type-and-permission mode and the size. *)
Record Stat : Type := mkStat {
  st_mode : Z;
  st_size : option Z
}.

(** [stat.S_IFDIR], [stat.S_IFREG] and [stat.S_IFLNK]. *)
Definition S_IFDIR : Z := 16384.      (* 0o040000 *)
Definition S_IFREG : Z := 32768.      (* 0o100000 *)
Definition S_IFLNK : Z := 40960.      (* 0o120000 *)

(** [stat.S_IFMT(mode)] and [stat.S_IMODE(mode)]: the file type and the
    permission bits of a mode. *)
Definition S_IFMT (m : Z) : Z := Z.land m 61440.     (* 0o170000 *)
Definition S_IMODE (m : Z) : Z := Z.land m 4095.     (* 0o7777 *)

(** [BaseDir.getattr()], which [DictDir] inherits. *)
Definition dir_getattr (d : DictDir.Node) : Stat :=
  mkStat (Z.lor S_IFDIR (DictDir.mode d)) None.

(** [BaseSymlink.getattr()], which [Symlink] inherits. *)
Definition symlink_getattr (l : Symlink.Node) : Stat :=
  mkStat (Z.lor S_IFLNK (Symlink.mode l)) None.

(** [BlobFile.getattr()]. *)
Definition file_getattr : M BlobFile.Store Stat :=
  let* size := BlobFile.getattr_size in
  let* s := get in
  ret (mkStat (Z.lor S_IFREG (BlobFile.mode (BlobFile.node s))) (Some size)).

(** The mode is that of a file of type [t] with the permission bits [p]. *)
Definition mode_is (t p m : Z) : Prop :=
  S_IFMT m = t /\ S_IMODE m = p /\ 0 <= p <= 511.

(** The check of [mode_is] for the permission bits [p] under the three
    types. *)
Definition mode_bits_ok (p : Z) : bool :=
  forallb (fun t => (Z.land (Z.lor t p) 61440 =? t) && (Z.land (Z.lor t p) 4095 =? p))
          [S_IFDIR; S_IFREG; S_IFLNK].

End Attr.

(** * Properties *)

(** ** GeneratorFile *)

Module GeneratorFileFacts.
Import GeneratorFile.

Section Streaming.
Variable Bytes_Like : Type.
Variable as_bytes : Bytes_Like -> bytes.

Abbreviation Cursor := (Cursor Bytes_Like).
Abbreviation read := (read Bytes_Like as_bytes).
Abbreviation reads := (reads Bytes_Like as_bytes).
Abbreviation read_loop := (read_loop Bytes_Like as_bytes).
Abbreviation read_body := (read_body Bytes_Like as_bytes).
Abbreviation todo := (todo Bytes_Like).

Lemma slice_length {A : Type} (b : list A) (p k : nat) :
  (p + k <= length b)%nat -> length (slice b p (p + k)) = k.
Proof.
  intros H. unfold slice. rewrite length_take, length_drop. lia.
Qed.

(** A pass of the loop body leaves strictly less to do. *)
Lemma read_body_todo (size : Z) (c : Cursor) (blob r : bytes) :
  current_blob _ c = Some blob -> len r < size ->
  (todo size (read_body size c blob r).1 (read_body size c blob r).2
     < todo size c r)%nat.
Proof.
  intros Hb Hlt. unfold read_body, todo, len in *.
  destruct (Z.ltb_spec 0 (Z.min (size - Z.of_nat (length r))
    (Z.of_nat (length blob) - Z.of_nat (current_blob_position _ c)))) as [Hn|Hn].
  - cbn [fst snd c_generator current_blob]. rewrite Hb.
    rewrite length_app, slice_length by lia. lia.
  - rewrite Hb. destruct (c_generator _ c) as [|x g]; cbn; lia.
Qed.

(** With at least [todo] passes allowed the loop reaches its end. *)
Lemma read_loop_total (fuel : nat) :
  forall (size : Z) (c : Cursor) (r : bytes),
    (todo size c r <= fuel)%nat ->
    exists out, read_loop fuel size c r = Some out.
Proof.
  induction fuel as [|fuel IH]; intros size c r Hfuel.
  - cbn. destruct (current_blob _ c) as [blob|] eqn:Hb; [|eauto].
    destruct (Z.ltb_spec (len r) size) as [Hlt|Hge]; [|eauto].
    unfold todo in Hfuel. rewrite Hb in Hfuel. lia.
  - cbn. destruct (current_blob _ c) as [blob|] eqn:Hb; [|eauto].
    destruct (Z.ltb_spec (len r) size) as [Hlt|Hge]; [|eauto].
    pose proof (read_body_todo size c blob r Hb Hlt) as Hdec.
    destruct (read_body size c blob r) as [c' r']. cbn [fst snd] in Hdec.
    destruct (_ && _); [eauto|]. apply IH. lia.
Qed.

(** [Handle.read] returns for every cursor and every request. *)
Lemma read_total (c : Cursor) (size offset : Z) :
  exists out, read c size offset = Some out.
Proof.
  apply read_loop_total. unfold todo, read_fuel, len. cbn [length].
  destruct (current_blob _ c); lia.
Qed.

(** At the end of the stream a read returns no bytes and moves nothing. *)
Lemma read_exhausted (c : Cursor) (size offset : Z) :
  current_blob _ c = None -> read c size offset = Some (c, []).
Proof.
  intros Hb. unfold read, GeneratorFile.read.
  destruct (read_fuel _ size c); cbn; rewrite Hb; reflexivity.
Qed.

Lemma reads_exhausted (c : Cursor) (calls : list (Z * Z)) :
  current_blob _ c = None ->
  reads c calls = Some (c, replicate (length calls) []).
Proof.
  intros Hb. induction calls as [|[size offset] calls IH]; [reflexivity|].
  cbn [GeneratorFile.reads length replicate].
  rewrite (read_exhausted c size offset Hb), IH. reflexivity.
Qed.

(** C8: a [GeneratorFile] has no successful [open]: the constructor of
    its handle passes [nonseekable] to [FileHandle.__init__], which has no
    such parameter, so every call raises [TypeError]; a [FileHandle]
    carries [direct_io] and no non-seekable flag. *)
Theorem open_raises_TypeError (self : Node Bytes_Like) (mode : Z) :
  open Bytes_Like self mode = Raise (TypeError "nonseekable").
Proof. reflexivity. Qed.

(** C10: for every cursor and every request size, two reads that differ
    only in their offset both return, with the same bytes and the same
    cursor after the call. *)
Theorem read_ignores_offset (c : Cursor) (size offset1 offset2 : Z) :
  exists out, read c size offset1 = Some out /\ read c size offset2 = Some out.
Proof.
  destruct (read_total c size offset1) as [out Hout].
  exists out. split; [exact Hout|exact Hout].
Qed.

(** C6: on the cursor of a new session over the chunks [b"ab"] and
    [b"cde"], with no positive [min_read_len], reads of 4 bytes return
    [b"abcd"], then [b"e"], then the empty byte string for every further
    call, whatever the offsets; the cursor ends, and stays, at the end of
    the stream. *)
Theorem read_ab_cde (x y : Bytes_Like) (m : Z) (o1 o2 : Z) (more : list Z) :
  as_bytes x = ["a"; "b"]%byte ->
  as_bytes y = ["c"; "d"; "e"]%byte ->
  m <= 0 ->
  reads (fresh_cursor _ [x; y] m) (map (pair 4) (o1 :: o2 :: more))
  = Some (mkCursor _ [] None 0 m,
          ["a"; "b"; "c"; "d"]%byte :: ["e"]%byte
            :: replicate (length more) []).
Proof.
  intros Hx Hy Hm.
  cbn [map GeneratorFile.reads].
  assert (H1 : read (fresh_cursor _ [x; y] m) 4 o1
               = Some (mkCursor _ [] (Some ["c"; "d"; "e"]%byte) 2%nat m,
                       ["a"; "b"; "c"; "d"]%byte)).
  { unfold read, GeneratorFile.read, read_fuel, fresh_cursor.
    destruct m as [|p|p]; [|lia|];
      repeat (lazy; rewrite ?Hx, ?Hy); reflexivity. }
  rewrite H1.
  assert (H2 : read (mkCursor _ [] (Some ["c"; "d"; "e"]%byte) 2%nat m) 4 o2
               = Some (mkCursor _ [] None 0%nat m, ["e"]%byte)).
  { unfold read, GeneratorFile.read, read_fuel.
    destruct m as [|p|p]; [|lia|]; reflexivity. }
  rewrite H2.
  rewrite reads_exhausted by reflexivity.
  rewrite length_map. reflexivity.
Qed.

End Streaming.

(** With [min_read_len = 1] a read returns after the first chunk that gave
    bytes. *)
Example read_min_read_len :
  GeneratorFile.read bytes (fun b => b)
    (fresh_cursor bytes [["a"; "b"]%byte; ["c"; "d"; "e"]%byte] 1) 4 0
  = Some (mkCursor bytes [["c"; "d"; "e"]%byte] (Some ["a"; "b"]%byte) 2 1,
          ["a"; "b"]%byte).
Proof. reflexivity. Qed.

(** The chunks are [bytes] already and [as_bytes] returns them as they
    are. *)
Lemma read_ab_cde_witness :
  GeneratorFile.reads bytes (fun b => b)
    (fresh_cursor bytes [["a"; "b"]%byte; ["c"; "d"; "e"]%byte] (-1))
    [(4, 0); (4, 4); (4, 5); (4, 5)]
  = Some (mkCursor bytes [] None 0 (-1),
          [["a"; "b"; "c"; "d"]%byte; ["e"]%byte; []; []]).
Proof.
  apply (read_ab_cde bytes (fun b => b) _ _ (-1) 0 4 [5; 5]);
    [reflexivity | reflexivity | lia].
Defined.

End GeneratorFileFacts.

(** ** Dictionaries *)

Module DictFacts.
Section Dict.
Context {V : Type}.
Implicit Types (d : Dict.t V) (k : string) (v : V).

Lemma get_set_eq k v d : Dict.get k (Dict.set k v d) = Some v.
Proof.
  induction d as [|[k' v'] d IH]; cbn.
  - rewrite String.eqb_refl. reflexivity.
  - destruct (String.eqb_spec k' k) as [->|Hne]; cbn.
    + rewrite String.eqb_refl. reflexivity.
    + destruct (String.eqb_spec k' k); [contradiction|exact IH].
Qed.

Lemma get_set_ne k k' v d :
  k' <> k -> Dict.get k' (Dict.set k v d) = Dict.get k' d.
Proof.
  intros Hne. induction d as [|[k0 v0] d IH]; cbn.
  - destruct (String.eqb_spec k k'); [congruence|reflexivity].
  - destruct (String.eqb_spec k0 k) as [->|Hk0]; cbn.
    + destruct (String.eqb_spec k k'); [congruence|reflexivity].
    + rewrite IH. reflexivity.
Qed.

(** Assigning to a name that is present keeps the names and their
    order. *)
Lemma keys_set_present k v d :
  Dict.mem k d = true -> Dict.keys (Dict.set k v d) = Dict.keys d.
Proof.
  unfold Dict.mem. induction d as [|[k0 v0] d IH]; cbn; [discriminate|].
  destruct (String.eqb_spec k0 k) as [->|Hk0]; cbn; [reflexivity|].
  intros H. unfold Dict.keys in IH. rewrite IH by exact H. reflexivity.
Qed.

(** Assigning to a new name puts it after the others. *)
Lemma keys_set_absent k v d :
  Dict.get k d = None -> Dict.keys (Dict.set k v d) = Dict.keys d ++ [k].
Proof.
  induction d as [|[k0 v0] d IH]; cbn; [reflexivity|].
  destruct (String.eqb_spec k0 k) as [->|Hk0]; cbn; [discriminate|].
  intros H. unfold Dict.keys in IH. rewrite IH by exact H. reflexivity.
Qed.

Lemma length_set_present k v d :
  Dict.mem k d = true -> length (Dict.set k v d) = length d.
Proof.
  intros H. apply keys_set_present with (v := v) in H.
  apply (f_equal length) in H. unfold Dict.keys in H.
  rewrite !length_map in H. exact H.
Qed.

Lemma del_absent k d : Dict.get k d = None -> Dict.del k d = None.
Proof.
  induction d as [|[k0 v0] d IH]; cbn; [reflexivity|].
  destruct (String.eqb_spec k0 k) as [->|Hk0]; [discriminate|].
  intros H. rewrite IH by exact H. reflexivity.
Qed.

End Dict.
End DictFacts.

(** ** DictDir *)

Module DictDirFacts.
Import DictDir.

Section Directory.
Implicit Types (σ : Heap) (self : loc) (d : Node) (name : string).

Lemma self_dir_ok σ self d :
  σ !! self = Some (Dir d) -> self_dir self σ = (σ, Ok d).
Proof. intros H. unfold self_dir, deref, bind. rewrite H. reflexivity. Qed.

Lemma setitem_ok σ self d name (n : loc) :
  σ !! self = Some (Dir d) ->
  setitem self name n σ
  = (<[self := Dir (mkNode (mode d) (rw d) (Dict.set name n (contents d)))]> σ, Ok tt).
Proof.
  intros H. unfold setitem, bind. rewrite (self_dir_ok _ _ _ H). reflexivity.
Qed.

Lemma mapping_dir σ self d :
  σ !! self = Some (Dir d) -> mapping σ self = Some (contents d).
Proof. intros H. unfold mapping. rewrite H. reflexivity. Qed.

(** An assignment to a name that is present replaces its entry. *)
Lemma setitem_replaced σ σ1 self d name (n : loc) :
  σ !! self = Some (Dir d) -> σ1 !! self = Some (Dir d) ->
  Dict.mem name (contents d) = true ->
  replaced σ (setitem self name n σ1).1 self name n.
Proof.
  intros H H1 Hin. rewrite (setitem_ok _ _ _ _ _ H1). cbn [fst].
  exists (contents d), (Dict.set name n (contents d)).
  split; [apply mapping_dir, H|]. split.
  { unfold mapping. rewrite list_lookup_insert_eq; [reflexivity|].
    apply lookup_lt_Some in H1. exact H1. }
  split; [exact Hin|]. split; [apply DictFacts.get_set_eq|].
  split; [intros k Hk; apply DictFacts.get_set_ne, Hk|].
  split; [apply DictFacts.keys_set_present, Hin|].
  apply DictFacts.length_set_present, Hin.
Qed.

(** A new object leaves the old ones where they are. *)
Lemma lookup_new σ self d (o : Object) :
  σ !! self = Some (Dir d) -> (σ ++ [o]) !! self = Some (Dir d).
Proof.
  intros H. rewrite lookup_app_l; [exact H|].
  apply lookup_lt_Some in H. exact H.
Qed.

(** [mknod] of a device fails on a writable directory whatever the
    name. *)
Lemma mknod_device σ self d name mode dev :
  σ !! self = Some (Dir d) -> rw d = true -> dev <> 0 ->
  mknod self name mode dev σ = (σ, Raise (FuseOSError ENOSYS)).
Proof.
  intros H Hrw Hdev. unfold mknod, bind.
  rewrite (self_dir_ok _ _ _ H), Hrw. cbn [negb].
  destruct (Z.eqb_spec dev 0); [contradiction|reflexivity].
Qed.

(** C9: on a writable directory, for a name that is present, [mknod] (of
    a regular file, [dev = 0]), [mkdir], [symlink] and [link] succeed and
    replace the entry of the name by the new (or the given) node; the
    names, their order and their number stay as they were. *)
Theorem create_replaces_existing σ self d name :
  σ !! self = Some (Dir d) -> rw d = true ->
  Dict.mem name (contents d) = true ->
  (forall mode, exists σ',
      mknod self name mode 0 σ = (σ', Ok (length σ)) /\
      σ' !! length σ = Some (Blob (BlobFile.init [] (Some mode) true)) /\
      replaced σ σ' self name (length σ)) /\
  (forall mode, exists σ',
      mkdir self name mode σ = (σ', Ok (length σ)) /\
      σ' !! length σ = Some (Dir (init [] (Some mode) true)) /\
      replaced σ σ' self name (length σ)) /\
  (forall target, exists σ',
      symlink self name target σ = (σ', Ok tt) /\
      σ' !! length σ = Some (Link (Symlink.init target 292)) /\
      replaced σ σ' self name (length σ)) /\
  (forall node, exists σ',
      link self name node σ = (σ', Ok tt) /\
      replaced σ σ' self name node).
Proof.
  intros H Hrw Hin.
  pose proof (lookup_lt_Some _ _ _ H) as Hlt.
  assert (Hnew : forall o : Object,
    <[self := Dir (mkNode (mode d) (rw d)
                     (Dict.set name (length σ) (contents d)))]> (σ ++ [o])
      !! length σ = Some o).
  { intros o. rewrite list_lookup_insert_ne by lia.
    rewrite lookup_app_r by lia. rewrite Nat.sub_diag. reflexivity. }
  repeat split.
  - intros mode0. eexists. unfold mknod, bind, new.
    rewrite (self_dir_ok _ _ _ H), Hrw. cbn [negb Z.eqb].
    pose proof (setitem_replaced σ _ self d name (length σ) H
                  (lookup_new _ _ _ (Blob (BlobFile.init [] (Some mode0) true)) H)
                  Hin) as Hrep.
    rewrite (setitem_ok _ _ _ _ _ (lookup_new _ _ _ _ H)) in Hrep |- *.
    cbn [fst] in Hrep. unfold ret.
    split; [reflexivity|]. split; [apply Hnew|exact Hrep].
  - intros mode0. eexists. unfold mkdir, bind, new.
    rewrite (self_dir_ok _ _ _ H), Hrw. cbn [negb].
    pose proof (setitem_replaced σ _ self d name (length σ) H
                  (lookup_new _ _ _ (Dir (init [] (Some mode0) true)) H)
                  Hin) as Hrep.
    rewrite (setitem_ok _ _ _ _ _ (lookup_new _ _ _ _ H)) in Hrep |- *.
    cbn [fst] in Hrep. unfold ret.
    split; [reflexivity|]. split; [apply Hnew|exact Hrep].
  - intros target. eexists. unfold symlink, bind, new.
    rewrite (self_dir_ok _ _ _ H), Hrw. cbn [negb].
    pose proof (setitem_replaced σ _ self d name (length σ) H
                  (lookup_new _ _ _ (Link (Symlink.init target 292)) H)
                  Hin) as Hrep.
    rewrite (setitem_ok _ _ _ _ _ (lookup_new _ _ _ _ H)) in Hrep |- *.
    cbn [fst] in Hrep.
    split; [reflexivity|]. split; [apply Hnew|exact Hrep].
  - intros node. eexists. unfold link.
    pose proof (setitem_replaced σ σ self d name node H H Hin) as Hrep.
    rewrite (setitem_ok _ _ _ _ _ H) in Hrep |- *. cbn [fst] in Hrep.
    split; [reflexivity|exact Hrep].
Qed.

(** On a directory that is not writable the guarded operations raise and
    change nothing. *)
Lemma guarded_read_only σ self d name :
  σ !! self = Some (Dir d) -> rw d = false ->
  (forall mode dev, mknod self name mode dev σ = (σ, Raise (FuseOSError_of "ENOPERM"))) /\
  (forall mode, mkdir self name mode σ = (σ, Raise (FuseOSError_of "ENOPERM"))) /\
  unlink self name σ = (σ, Raise (FuseOSError_of "ENOPERM")) /\
  rmdir self name σ = (σ, Raise (FuseOSError_of "ENOPERM")) /\
  (forall target, symlink self name target σ = (σ, Raise (FuseOSError_of "ENOPERM"))).
Proof.
  intros H Hrw.
  repeat split; intros;
    unfold mknod, mkdir, unlink, rmdir, symlink, bind;
    rewrite (self_dir_ok _ _ _ H), Hrw; reflexivity.
Qed.

(** [rename] into something that is no [DictDir] raises [ENOSYS] and
    changes nothing. *)
Lemma rename_not_DictDir σ self old_name new_parent new_name (o : Object) :
  σ !! new_parent = Some o -> is_DictDir o = false ->
  rename self old_name new_parent new_name σ = (σ, Raise (FuseOSError ENOSYS)).
Proof.
  intros H Ho. unfold rename, bind, deref. rewrite H.
  destruct o; [discriminate Ho|reflexivity..].
Qed.

(** [rename] between two writable directories gets as far as reading
    [name] and changes nothing. *)
Lemma rename_writable σ self d old_name new_parent np new_name :
  σ !! self = Some (Dir d) -> σ !! new_parent = Some (Dir np) ->
  rw d = true -> rw np = true ->
  rename self old_name new_parent new_name σ = (σ, Raise (NameError "name")).
Proof.
  intros H Hp Hrw Hrwp. unfold rename, bind, deref. rewrite Hp.
  rewrite (self_dir_ok _ _ _ H), Hrw, Hrwp. reflexivity.
Qed.

(** C3: [rename("a", new_parent, "b")] from a writable directory with an
    entry ["a"] into a writable, empty directory raises [NameError]; the
    entry stays under ["a"] and the target directory stays empty. *)
Theorem rename_raises_NameError :
  let σ := [Dir (init [("a", 2%nat)] None true); Dir (init [] None true); Other] in
  rename 0 "a" 1 "b" σ = (σ, Raise (NameError "name")) /\
  mapping σ 0 = Some [("a", 2%nat)] /\ mapping σ 1 = Some [].
Proof. repeat split. Qed.

(** C4: [link] on a directory that is not writable does not fail: it
    returns and the mapping has the new entry.  The guarded operations on
    the same directory do fail and change nothing, with the
    [AttributeError] of [errno.ENOPERM], which is no [PermissionDenied]. *)
Theorem link_ignores_read_only :
  let σ := [Dir (init [] None false); Other] in
  mapping σ 0 = Some [] /\
  (exists σ', link 0 "x" 1 σ = (σ', Ok tt) /\ mapping σ' 0 = Some [("x", 1%nat)]) /\
  mknod 0 "x" 0 0 σ = (σ, Raise (AttributeError "errno" "ENOPERM")) /\
  ~ is_PermissionDenied (AttributeError "errno" "ENOPERM").
Proof.
  cbn zeta. split; [reflexivity|]. split.
  - eexists. split; reflexivity.
  - split; [reflexivity|]. intros [E|E]; discriminate E.
Qed.

(** C7, as stated, fails: on a writable directory without the name,
    [unlink] and [rmdir] do not fail with NotFound (they raise the
    [KeyError] of the dictionary), and on a directory that is not writable
    the failure is that of the guard, no NotFound either. *)
Lemma remove_missing_not_NotFound :
  ~ fails_with is_NotFound (unlink 0 "missing" [Dir (init [] None true)]) /\
  ~ fails_with is_NotFound (rmdir 0 "missing" [Dir (init [] None true)]) /\
  ~ fails_with is_NotFound (unlink 0 "missing" [Dir (init [] None false)]) /\
  ~ fails_with is_NotFound (rmdir 0 "missing" [Dir (init [] None false)]).
Proof.
  repeat split; intros [e [He Hnf]]; vm_compute in He;
    injection He as <-; discriminate Hnf.
Qed.

(** C7, amended: for a name that is not in the mapping, [unlink] and
    [rmdir] fail and leave the directory, and every other object, as it
    was; on a writable directory the failure is the [KeyError] of the
    name, and on a directory that is not writable it is the failure of the
    read-write guard, which comes first. *)
Theorem remove_missing_fails σ self d name :
  σ !! self = Some (Dir d) -> Dict.get name (contents d) = None ->
  (exists e, unlink self name σ = (σ, Raise e) /\
             (rw d = true -> e = KeyError name) /\
             (rw d = false -> e = FuseOSError_of "ENOPERM")) /\
  (exists e, rmdir self name σ = (σ, Raise e) /\
             (rw d = true -> e = KeyError name) /\
             (rw d = false -> e = FuseOSError_of "ENOPERM")).
Proof.
  intros H Habs. unfold unlink, rmdir, bind.
  rewrite (self_dir_ok _ _ _ H).
  destruct (rw d) eqn:Hrw; cbn [negb].
  - unfold delitem, bind. rewrite (self_dir_ok _ _ _ H).
    rewrite (DictFacts.del_absent _ _ Habs).
    split; exists (KeyError name);
      (split; [reflexivity|]); (split; [reflexivity|discriminate]).
  - split; exists (FuseOSError_of "ENOPERM");
      (split; [reflexivity|]); (split; [discriminate|reflexivity]).
Qed.

(** C5, as stated, fails: the handle of [opendir] is no snapshot.  A
    handle opened on a directory with the one name ["a"] yields ["a"] and
    ["b"] once [mknod] has added ["b"]. *)
Lemma readdir_not_snapshot :
  let σ := [Dir (init [("a", 1%nat)] None true); Other] in
  exists h σ',
    opendir 0 σ = (σ, Ok h) /\
    mapping σ 0 = Some [("a", 1%nat)] /\
    (mknod 0 "b" 0 0 σ).1 = σ' /\
    (readdir h σ').2 = Ok ["a"; "b"] /\
    (readdir h σ').2 <> Ok (Dict.keys [("a", 1%nat)]).
Proof.
  cbn zeta. eexists. eexists.
  split; [reflexivity|]. split; [reflexivity|]. split; [reflexivity|].
  split; [reflexivity|]. vm_compute. discriminate.
Qed.

(** C5, amended: [opendir] returns a handle on the live names of the
    directory: its [readdir] yields the names that the mapping has when it
    is read, in insertion order (a name linked after [opendir] comes last);
    with no mutation in between these are the names at [opendir] time, and
    a second [opendir] after the first handle was read to its end yields
    the same sequence again. *)
Theorem opendir_readdir σ self d :
  σ !! self = Some (Dir d) ->
  exists h,
    opendir self σ = (σ, Ok h) /\
    readdir h σ = (σ, Ok (Dict.keys (contents d))) /\
    opendir_twice self σ
      = (σ, Ok (Dict.keys (contents d), Dict.keys (contents d))) /\
    (forall σ' d', σ' !! self = Some (Dir d') ->
       readdir h σ' = (σ', Ok (Dict.keys (contents d')))) /\
    (forall name node, Dict.get name (contents d) = None ->
       readdir h (link self name node σ).1
       = ((link self name node σ).1, Ok (Dict.keys (contents d) ++ [name]))).
Proof.
  intros H. exists (mkHandle self (keys_of self)).
  assert (Hlive : forall σ' d', σ' !! self = Some (Dir d') ->
            readdir (mkHandle self (keys_of self)) σ'
            = (σ', Ok (Dict.keys (contents d')))).
  { intros σ' d' H'. unfold readdir, bind. cbn [items].
    rewrite (self_dir_ok _ _ _ H'). reflexivity. }
  split. { unfold opendir, bind. rewrite (self_dir_ok _ _ _ H). reflexivity. }
  split; [apply Hlive, H|].
  split.
  { unfold opendir_twice, opendir, bind. rewrite (self_dir_ok _ _ _ H).
    unfold ret at 1. rewrite (Hlive _ _ H).
    rewrite (self_dir_ok _ _ _ H). unfold ret at 1. rewrite (Hlive _ _ H).
    reflexivity. }
  split; [exact Hlive|].
  intros name node Habs. unfold link.
  rewrite (setitem_ok _ _ _ _ _ H). cbn [fst].
  erewrite Hlive.
  2:{ apply list_lookup_insert_eq. apply lookup_lt_Some in H. exact H. }
  cbn [contents]. rewrite (DictFacts.keys_set_absent _ _ _ Habs). reflexivity.
Qed.

End Directory.

(** [mknod], [mkdir] and [unlink] on a writable directory. *)
Example make_and_remove :
  let σ := [Dir (init [] None true)] in
  let σ1 := (mknod 0 "f" 420 0 σ).1 in
  let σ2 := (mkdir 0 "d" 493 σ1).1 in
  mapping σ2 0 = Some [("f", 1%nat); ("d", 2%nat)] /\
  σ2 !! 1%nat = Some (Blob (BlobFile.mkNode 420 true [] None)) /\
  σ2 !! 2%nat = Some (Dir (mkNode 493 true [])) /\
  mapping (unlink 0 "f" σ2).1 0 = Some [("d", 2%nat)] /\
  (lookup 0 "d" σ2).2 = Ok (Some 2%nat) /\
  (lookup 0 "x" σ2).2 = Ok None.
Proof. repeat split. Qed.

(** A writable directory with the entry ["a"]. *)
Lemma create_replaces_existing_witness :
  let σ := [Dir (init [("a", 1%nat)] None true); Other] in
  (forall mode, exists σ',
      mknod 0 "a" mode 0 σ = (σ', Ok (length σ)) /\
      σ' !! length σ = Some (Blob (BlobFile.init [] (Some mode) true)) /\
      replaced σ σ' 0 "a" (length σ)) /\
  (forall mode, exists σ',
      mkdir 0 "a" mode σ = (σ', Ok (length σ)) /\
      σ' !! length σ = Some (Dir (init [] (Some mode) true)) /\
      replaced σ σ' 0 "a" (length σ)) /\
  (forall target, exists σ',
      symlink 0 "a" target σ = (σ', Ok tt) /\
      σ' !! length σ = Some (Link (Symlink.init target 292)) /\
      replaced σ σ' 0 "a" (length σ)) /\
  (forall node, exists σ',
      link 0 "a" node σ = (σ', Ok tt) /\
      replaced σ σ' 0 "a" node).
Proof.
  apply (create_replaces_existing
           [Dir (init [("a", 1%nat)] None true); Other] 0%nat
           (init [("a", 1%nat)] None true) "a"); reflexivity.
Defined.

(** A read-only and a writable empty directory, and the name ["missing"]. *)
Lemma remove_missing_fails_witness :
  ((exists e, unlink 0 "missing" [Dir (init [] None true)]
              = ([Dir (init [] None true)], Raise e) /\
              (true = true -> e = KeyError "missing") /\
              (true = false -> e = FuseOSError_of "ENOPERM")) /\
   (exists e, rmdir 0 "missing" [Dir (init [] None true)]
              = ([Dir (init [] None true)], Raise e) /\
              (true = true -> e = KeyError "missing") /\
              (true = false -> e = FuseOSError_of "ENOPERM"))) /\
  ((exists e, unlink 0 "missing" [Dir (init [] None false)]
              = ([Dir (init [] None false)], Raise e) /\
              (false = true -> e = KeyError "missing") /\
              (false = false -> e = FuseOSError_of "ENOPERM")) /\
   (exists e, rmdir 0 "missing" [Dir (init [] None false)]
              = ([Dir (init [] None false)], Raise e) /\
              (false = true -> e = KeyError "missing") /\
              (false = false -> e = FuseOSError_of "ENOPERM"))).
Proof.
  split.
  - apply (remove_missing_fails [Dir (init [] None true)] 0%nat
             (init [] None true) "missing"); reflexivity.
  - apply (remove_missing_fails [Dir (init [] None false)] 0%nat
             (init [] None false) "missing"); reflexivity.
Defined.

(** The directory with the children ["a"] and ["b"], inserted in this
    order: both handles yield [a, b]. *)
Lemma opendir_readdir_witness :
  let σ := [Dir (init (Dict.set "b" 2%nat (Dict.set "a" 1%nat [])) None false);
            Other; Other] in
  exists h,
    opendir 0 σ = (σ, Ok h) /\
    readdir h σ = (σ, Ok ["a"; "b"]) /\
    opendir_twice 0 σ = (σ, Ok (["a"; "b"], ["a"; "b"])) /\
    (forall σ' d', σ' !! 0%nat = Some (Dir d') ->
       readdir h σ' = (σ', Ok (Dict.keys (contents d')))) /\
    (forall name node, Dict.get name [("a", 1%nat); ("b", 2%nat)] = None ->
       readdir h (link 0 name node σ).1
       = ((link 0 name node σ).1, Ok (["a"; "b"] ++ [name]))).
Proof.
  apply (opendir_readdir
           [Dir (init (Dict.set "b" 2%nat (Dict.set "a" 1%nat [])) None false);
            Other; Other] 0%nat
           (init (Dict.set "b" 2%nat (Dict.set "a" 1%nat [])) None false)).
  reflexivity.
Defined.

End DictDirFacts.

(** ** BlobFile *)

Module BlobFileFacts.
Import BlobFile.

Section Buffered.
Implicit Types (s : Store) (h : nat) (x : Handle) (d : bytes).

Lemma get_handle_ok s h x :
  handles s !! h = Some x -> get_handle h s = (s, Ok x).
Proof. intros H. unfold get_handle. rewrite H. reflexivity. Qed.

Lemma lookup_put s h x x' :
  handles s !! h = Some x -> handles (put h x' s) !! h = Some x'.
Proof.
  intros H. cbn. apply list_lookup_insert_eq.
  apply lookup_lt_Some in H. exact H.
Qed.

Lemma put_put s h x x' : put h x' (put h x s) = put h x' s.
Proof. unfold put. cbn. rewrite list_insert_insert_eq. reflexivity. Qed.

(** [open] on a node without shared handle creates one over the content
    that [load] returns, with one reference. *)
Lemma open_first s m :
  shared_handle (node s) = None ->
  open m s
  = (mkStore (set_shared_handle (Some (length (handles s))) (node s))
             (handles s ++ [mkHandle (mkBytesIO (data (node s)) 0) (Some false) 1])
             (saves s),
     Ok (length (handles s))).
Proof.
  intros H. unfold open, bind, get, load. cbn. rewrite H. cbn.
  unfold get_handle. cbn.
  rewrite lookup_app_r by lia. rewrite Nat.sub_diag. cbn. unfold put. cbn.
  rewrite insert_app_r_alt by lia. rewrite Nat.sub_diag. reflexivity.
Qed.

(** [open] on a node with a shared handle returns it, with one reference
    more. *)
Lemma open_again s h x m :
  shared_handle (node s) = Some h -> handles s !! h = Some x ->
  open m s = (put h (mkHandle (buffer x) (dirty x) (refs x + 1)) s, Ok h).
Proof.
  intros H Hx. unfold open, bind, get. cbn. rewrite H. cbn. rewrite H.
  cbn beta. rewrite (get_handle_ok _ _ _ Hx). reflexivity.
Qed.

(** [write] to a writable node. *)
Lemma write_ok s h x d offset :
  rw (node s) = true -> handles s !! h = Some x -> 0 <= offset ->
  write h d offset s
  = (put h (mkHandle (bio_write (mkBytesIO (getvalue (buffer x)) (Z.to_nat offset)) d)
                     (Some true) (refs x)) s,
     Ok (len d)).
Proof.
  intros Hrw Hx Hoff. unfold write, bind, get. rewrite Hrw. cbn [negb].
  rewrite (get_handle_ok _ _ _ Hx). unfold put_handle at 1.
  unfold lift, seek. destruct (Z.ltb_spec offset 0); [lia|].
  unfold put_handle, ret. cbn. rewrite !put_put. reflexivity.
Qed.

(** [read] at a non-negative offset. *)
Lemma read_ok s h x size offset :
  handles s !! h = Some x -> 0 <= offset ->
  let b := mkBytesIO (getvalue (buffer x)) (Z.to_nat offset) in
  read h size offset s
  = (put h (mkHandle (bio_read b size).1 (dirty x) (refs x)) s,
     Ok (bio_read b size).2).
Proof.
  intros Hx Hoff. unfold read, bind.
  rewrite (get_handle_ok _ _ _ Hx). unfold lift, seek.
  destruct (Z.ltb_spec offset 0); [lia|].
  unfold put_handle, ret. cbn. rewrite !put_put. reflexivity.
Qed.

(** What was written at the start of the buffer is what a read of as many
    bytes from the start returns. *)
Lemma bio_read_after_write (v d : bytes) :
  (bio_read (mkBytesIO (getvalue (bio_write (mkBytesIO v 0) d)) 0) (len d)).2 = d.
Proof.
  unfold bio_read, len. cbn [getvalue tell fst snd].
  destruct (Z.ltb_spec (Z.of_nat (length d)) 0); [lia|].
  rewrite Nat2Z.id, Nat.sub_0_r, drop_0.
  destruct d as [|c d]; [reflexivity|].
  unfold bio_write. cbn [getvalue tell].
  remember (c :: d) as d' eqn:E. clear E.
  rewrite take_0, Nat.sub_0_l. cbn [replicate app].
  rewrite Nat.min_l by (rewrite length_app; lia).
  rewrite take_app_length. reflexivity.
Qed.

(** C2: on a writable node, two handles obtained by [open] with no
    [release] in between are one handle object, and a read of [len(d)]
    bytes at offset 0 through the second returns the [d] that was written
    at offset 0 through the first. *)
Theorem shared_buffer_coherence s d :
  wf s -> rw (node s) = true ->
  exists s' a b,
    write_then_read d 0 (len d) 0 s = (s', Ok (a, b, d)) /\ a = b.
Proof.
  intros Hwf Hrw. unfold write_then_read, bind.
  assert (Hopen : exists s1 h x, open 2 s = (s1, Ok h) /\
            shared_handle (node s1) = Some h /\ handles s1 !! h = Some x /\
            rw (node s1) = true).
  { unfold wf in Hwf. destruct (shared_handle (node s)) as [h|] eqn:Hs.
    - destruct Hwf as [x Hx]. eexists _, h, _.
      rewrite (open_again _ _ _ _ Hs Hx).
      split; [reflexivity|]. split; [exact Hs|].
      split; [apply (lookup_put _ _ _ _ Hx)|exact Hrw].
    - eexists _, _, _. rewrite (open_first _ _ Hs).
      split; [reflexivity|]. cbn. split; [reflexivity|].
      split; [|exact Hrw]. rewrite lookup_app_r by lia.
      rewrite Nat.sub_diag. reflexivity. }
  destruct Hopen as (s1 & h & x & -> & Hs1 & Hx1 & Hrw1).
  rewrite (open_again _ _ _ _ Hs1 Hx1).
  set (x2 := mkHandle (buffer x) (dirty x) (refs x + 1)).
  pose proof (lookup_put _ _ _ x2 Hx1) as Hx2.
  set (s2 := put h x2 s1) in *.
  rewrite (write_ok s2 h x2 d 0 Hrw1 Hx2) by lia.
  set (x3 := mkHandle _ (Some true) (refs x2)).
  pose proof (lookup_put _ _ _ x3 Hx2) as Hx3.
  set (s3 := put h x3 s2) in *.
  rewrite (read_ok s3 h x3 (len d) 0 Hx3) by lia.
  unfold ret. subst x3. cbn [buffer dirty refs getvalue].
  change (Z.to_nat 0) with 0%nat.
  rewrite bio_read_after_write.
  eexists _, h, h. split; reflexivity.
Qed.

(** *** The life cycle of the shared handle *)

Lemma obs_inv s h (nd : Node) x (sv : list bytes) :
  obs h s = (nd, Some x, sv) ->
  node s = nd /\ handles s !! h = Some x /\ saves s = sv.
Proof. unfold obs. intros E. injection E as -> -> ->. auto. Qed.

Lemma obs_put s h x x' :
  handles s !! h = Some x -> obs h (put h x' s) = (node s, Some x', saves s).
Proof.
  intros H. unfold obs. rewrite (lookup_put _ _ _ _ H). reflexivity.
Qed.

Lemma try_finally_store {A : Type} (m : M Store A) (f : M Store unit) s :
  (try_finally m f s).1 = (f (m s).1).1.
Proof.
  unfold try_finally. destruct (m s) as [s' r]. cbn [fst].
  destruct (f s') as [s'' [[]|e]]; reflexivity.
Qed.

(** [release] of a handle that keeps other references. *)
Lemma release_more s h x :
  handles s !! h = Some x -> refs x - 1 <> 0 ->
  release h s = (put h (mkHandle (buffer x) (dirty x) (refs x - 1)) s, Ok tt).
Proof.
  intros Hx Hn. unfold release, bind. rewrite (get_handle_ok _ _ _ Hx).
  unfold put_handle. destruct (Z.eqb_spec (refs x - 1) 0); [contradiction|].
  reflexivity.
Qed.

(** [release] of the last reference: the flush saves a dirty buffer, and
    the node gives up the shared handle. *)
Lemma release_last s h x :
  handles s !! h = Some x -> refs x - 1 = 0 ->
  obs h (release h s).1
  = match dirty x with
    | Some true =>
        (set_shared_handle None (set_data (getvalue (buffer x)) (node s)),
         Some (mkHandle (buffer x) None 0),
         saves s ++ [getvalue (buffer x)])
    | _ => (set_shared_handle None (node s),
            Some (mkHandle (buffer x) (dirty x) 0), saves s)
    end.
Proof.
  intros Hx Hn. unfold release, bind. rewrite (get_handle_ok _ _ _ Hx).
  unfold put_handle. rewrite Hn. cbn [Z.eqb].
  unfold flush, bind.
  rewrite (get_handle_ok _ _ _ (lookup_put _ _ _ _ Hx)). cbn [dirty buffer refs].
  pose proof (lookup_lt_Some _ _ _ Hx) as Hlt.
  destruct (dirty x) as [[|]|]; cbn; unfold obs; cbn;
    rewrite ?list_insert_insert_eq, list_lookup_insert_eq by exact Hlt;
    reflexivity.
Qed.

(** [handle.truncate] keeps the node, the saves and the references. *)
Lemma Handle_truncate_obs s h x size :
  handles s !! h = Some x ->
  exists x',
    obs h (Handle_truncate h size s).1 = (node s, Some x', saves s) /\
    refs x' = refs x /\
    (dirty x' = dirty x \/ (dirty x' = Some true /\ rw (node s) = true)).
Proof.
  intros Hx. unfold Handle_truncate, bind, get.
  destruct (rw (node s)) eqn:Hrw; cbn [negb].
  - rewrite (get_handle_ok _ _ _ Hx). unfold put_handle, lift, bio_truncate.
    destruct (size <? 0); cbn [fst]; rewrite ?put_put;
      eexists; (split; [apply (obs_put _ _ _ _ Hx)|]); cbn; auto.
  - exists x. cbn. unfold obs. rewrite Hx. auto.
Qed.

(** Between [open] and the last [release], an operation of a session keeps
    the node, the saves and the references of the shared handle; the
    buffer gets dirty only by a modifying operation on a writable node. *)
Lemma run_op_obs s h x (o : op) :
  shared_handle (node s) = Some h -> handles s !! h = Some x ->
  refs x <> 0 ->
  exists x',
    obs h (run_op h o s) = (node s, Some x', saves s) /\
    refs x' = refs x /\
    (dirty x' = dirty x \/
     (dirty x' = Some true /\ modifies o = true /\ rw (node s) = true)).
Proof.
  intros Hs Hx Hn. destruct o as [size offset|d offset|size|size|]; cbn [run_op modifies].
  - unfold read, bind. rewrite (get_handle_ok _ _ _ Hx). unfold lift, seek.
    destruct (offset <? 0).
    + exists x. cbn. unfold obs. rewrite Hx. auto.
    + unfold put_handle. destruct (bio_read _ size) as [b' out].
      cbn [fst]. rewrite put_put. eexists.
      split; [apply (obs_put _ _ _ _ Hx)|]. cbn. auto.
  - unfold write, bind, get. destruct (rw (node s)) eqn:Hrw; cbn [negb].
    + rewrite (get_handle_ok _ _ _ Hx). unfold put_handle, lift, seek.
      destruct (offset <? 0); cbn [fst]; rewrite ?put_put;
        eexists; (split; [apply (obs_put _ _ _ _ Hx)|]); cbn; auto.
    + exists x. cbn. unfold obs. rewrite Hx. auto.
  - destruct (Handle_truncate_obs s h x size Hx) as (x' & Ho & Hr & Hd).
    exists x'. split; [exact Ho|]. split; [exact Hr|].
    destruct Hd as [Hd|[Hd Hrw]]; auto.
  - unfold truncate, bind. rewrite (open_again _ _ _ _ Hs Hx).
    rewrite try_finally_store.
    set (x1 := mkHandle (buffer x) (dirty x) (refs x + 1)).
    pose proof (lookup_put _ _ _ x1 Hx) as Hx1.
    destruct (Handle_truncate_obs (put h x1 s) h x1 size Hx1)
      as (x2 & Ho & Hr & Hd).
    apply obs_inv in Ho. destruct Ho as (Hnd & Hx2 & Hsv).
    rewrite (release_more _ _ _ Hx2) by (rewrite Hr; cbn; lia).
    cbn [fst]. rewrite (obs_put _ _ _ _ Hx2), Hnd, Hsv.
    eexists. split; [reflexivity|]. cbn [refs dirty].
    split; [rewrite Hr; cbn; lia|].
    destruct Hd as [Hd|[Hd Hrw]]; auto.
  - exists x. unfold getattr_size, bind, get. rewrite Hs.
    rewrite (get_handle_ok _ _ _ Hx). cbn. unfold obs. rewrite Hx. auto.
Qed.

Lemma run_ops_obs (ops : list op) : forall s h x,
  shared_handle (node s) = Some h -> handles s !! h = Some x ->
  refs x <> 0 ->
  exists x',
    obs h (run_ops h ops s) = (node s, Some x', saves s) /\
    refs x' = refs x /\
    (dirty x' = dirty x \/
     (dirty x' = Some true /\ rw (node s) = true /\
      exists o, o ∈ ops /\ modifies o = true)).
Proof.
  induction ops as [|o ops IH]; intros s h x Hs Hx Hn.
  - exists x. cbn. unfold obs. rewrite Hx. auto.
  - cbn [run_ops fold_left].
    destruct (run_op_obs s h x o Hs Hx Hn) as (x1 & Ho & Hr & Hd).
    apply obs_inv in Ho. destruct Ho as (Hnd & Hx1 & Hsv).
    destruct (IH (run_op h o s) h x1) as (x2 & Ho2 & Hr2 & Hd2).
    { rewrite Hnd. exact Hs. } { exact Hx1. } { rewrite Hr. exact Hn. }
    exists x2. unfold run_ops in Ho2. rewrite Ho2, Hnd, Hsv.
    split; [reflexivity|]. split; [congruence|].
    rewrite Hnd in Hd2.
    destruct Hd2 as [Hd2|(Hd2 & Hrw & o' & Hin & Hm)].
    + destruct Hd as [Hd|(Hd & Hm & Hrw)]; [left; congruence|].
      right. split; [congruence|]. split; [exact Hrw|].
      exists o. split; [apply list_elem_of_here|exact Hm].
    + right. split; [exact Hd2|]. split; [exact Hrw|].
      exists o'. split; [apply list_elem_of_further, Hin|exact Hm].
Qed.

(** Further [open] calls return the shared handle and count up. *)
Lemma opens_obs (k : nat) : forall s h x,
  shared_handle (node s) = Some h -> handles s !! h = Some x ->
  obs h (opens k s)
  = (node s, Some (mkHandle (buffer x) (dirty x) (refs x + Z.of_nat k)), saves s).
Proof.
  induction k as [|k IH]; intros s h x Hs Hx.
  - cbn [opens]. unfold obs. rewrite Hx, Z.add_0_r. destruct x; reflexivity.
  - cbn [opens]. rewrite (open_again _ _ _ _ Hs Hx). cbn [fst].
    rewrite (IH (put h (mkHandle (buffer x) (dirty x) (refs x + 1)) s) h _
                Hs (lookup_put _ _ _ _ Hx)).
    cbn [put node saves buffer dirty refs]. do 4 f_equal. lia.
Qed.

(** [release] calls that leave a reference count down. *)
Lemma releases_obs (k : nat) : forall s h x,
  handles s !! h = Some x -> Z.of_nat k < refs x ->
  obs h (releases h k s)
  = (node s, Some (mkHandle (buffer x) (dirty x) (refs x - Z.of_nat k)), saves s).
Proof.
  induction k as [|k IH]; intros s h x Hx Hlt.
  - cbn [releases]. unfold obs. rewrite Hx, Z.sub_0_r. destruct x; reflexivity.
  - cbn [releases]. rewrite (release_more _ _ _ Hx) by lia. cbn [fst].
    rewrite (IH (put h (mkHandle (buffer x) (dirty x) (refs x - 1)) s) h _
                (lookup_put _ _ _ _ Hx)) by (cbn [refs]; lia).
    cbn [put node saves buffer dirty refs]. do 4 f_equal. lia.
Qed.

Lemma releases_S h (k : nat) : forall s,
  releases h (S k) s = (release h (releases h k s)).1.
Proof.
  induction k as [|k IH]; intros s; [reflexivity|].
  change (releases h (S (S k)) s) with (releases h (S k) (release h s).1).
  rewrite IH. reflexivity.
Qed.

(** A store whose node has the shared handle [h] with [n > 0] references,
    and one whose node has none, have the count they should. *)
Lemma counts_live s h x (nd : Node) (sv : list bytes) (n : Z) :
  obs h s = (nd, Some x, sv) -> shared_handle nd = Some h ->
  refs x = n -> 0 < n -> counts n s.
Proof.
  intros Ho Hs Hr Hn. apply obs_inv in Ho. destruct Ho as (<- & Hx & _).
  assert (Hc : session_count s = n).
  { unfold session_count. rewrite Hs, Hx. exact Hr. }
  split; [exact Hc|]. unfold coherent. rewrite Hc, Hs. split; eauto.
Qed.

Lemma counts_none s :
  shared_handle (node s) = None -> counts 0 s.
Proof.
  intros Hs. assert (Hc : session_count s = 0).
  { unfold session_count. rewrite Hs. reflexivity. }
  split; [exact Hc|]. unfold coherent. rewrite Hc, Hs.
  split; [intros [? [=]]|lia].
Qed.

(** The first [open] creates the handle, the further ones count up. *)
Lemma opens_first (k : nat) s :
  shared_handle (node s) = None ->
  obs (length (handles s)) (opens (S k) s)
  = (set_shared_handle (Some (length (handles s))) (node s),
     Some (mkHandle (mkBytesIO (data (node s)) 0) (Some false) (Z.of_nat (S k))),
     saves s).
Proof.
  intros Hs. cbn [opens]. rewrite (open_first _ _ Hs). cbn [fst].
  erewrite opens_obs; [|reflexivity|].
  2:{ cbn [handles]. rewrite lookup_app_r by lia.
      rewrite Nat.sub_diag. reflexivity. }
  cbn [node saves buffer dirty refs]. do 4 f_equal. lia.
Qed.

(** C1: on a file with no session open, [N >= 1] calls of [open], then any
    reads, writes and truncations of the sessions, then [N] calls of
    [release]: every [open] returns the one shared handle; after [k] opens
    the session count is [k], after [k] releases it is [N - k], at the end
    zero; in all these states the shared handle exists exactly when the
    count is positive; no [save] happens before the last [release], which
    saves once, the final content of the buffer, when the buffer is dirty,
    and a dirty buffer comes from a write or a truncation on a writable
    file. *)
Theorem open_release_cycle s (N : nat) (ops : list op) :
  shared_handle (node s) = None -> (1 <= N)%nat ->
  let h := length (handles s) in
  let s2 := run_ops h ops (opens N s) in
  let s3 := releases h N s2 in
  (forall k, (k < N)%nat -> (open 0 (opens k s)).2 = Ok h) /\
  (forall k, (k <= N)%nat -> counts (Z.of_nat k) (opens k s)) /\
  counts (Z.of_nat N) s2 /\
  (forall k, (k <= N)%nat -> counts (Z.of_nat N - Z.of_nat k) (releases h k s2)) /\
  (forall k, (k < N)%nat -> saves (releases h k s2) = saves s) /\
  session_count s3 = 0 /\ shared_handle (node s3) = None /\
  exists x x3,
    handles s2 !! h = Some x /\
    handles s3 !! h = Some x3 /\ refs x3 = 0 /\
    saves s3 = saves s ++ match dirty x with
                          | Some true => [getvalue (buffer x)]
                          | _ => []
                          end /\
    data (node s3) = match dirty x with
                     | Some true => getvalue (buffer x)
                     | _ => data (node s)
                     end /\
    (dirty x = Some true ->
     rw (node s) = true /\ exists o, o ∈ ops /\ modifies o = true).
Proof.
  intros Hs HN h s2 s3.
  set (nd1 := set_shared_handle (Some h) (node s)).
  assert (Hnd1 : shared_handle nd1 = Some h) by reflexivity.
  (* the opens *)
  assert (Hopens : forall k, obs h (opens (S k) s)
            = (nd1, Some (mkHandle (mkBytesIO (data (node s)) 0) (Some false)
                                   (Z.of_nat (S k))), saves s)).
  { intros k. apply opens_first, Hs. }
  (* the operations of the sessions *)
  destruct N as [|n]; [lia|].
  pose proof (Hopens n) as HoN. apply obs_inv in HoN.
  destruct HoN as (HndN & HxN & HsvN).
  destruct (run_ops_obs ops (opens (S n) s) h _
              ltac:(rewrite HndN; exact Hnd1) HxN ltac:(cbn [refs]; lia))
    as (x & Ho2 & Hr2 & Hd2).
  fold s2 in Ho2. rewrite HndN, HsvN in Ho2. cbn [refs dirty] in Hr2, Hd2.
  pose proof Ho2 as Ho2'. apply obs_inv in Ho2'.
  destruct Ho2' as (Hnd2 & Hx2 & Hsv2).
  (* the releases but the last *)
  assert (Hrel : forall k, (k < S n)%nat ->
            obs h (releases h k s2)
            = (nd1, Some (mkHandle (buffer x) (dirty x)
                                   (Z.of_nat (S n) - Z.of_nat k)), saves s)).
  { intros k Hk. rewrite (releases_obs k s2 h x Hx2) by lia.
    rewrite Hnd2, Hsv2, Hr2. reflexivity. }
  (* the last release *)
  assert (Hlast : obs h s3
            = match dirty x with
              | Some true =>
                  (set_shared_handle None (set_data (getvalue (buffer x)) nd1),
                   Some (mkHandle (buffer x) None 0),
                   saves s ++ [getvalue (buffer x)])
              | _ => (set_shared_handle None nd1,
                      Some (mkHandle (buffer x) (dirty x) 0), saves s)
              end).
  { unfold s3. rewrite releases_S.
    pose proof (Hrel n ltac:(lia)) as Hn. apply obs_inv in Hn.
    destruct Hn as (Hndn & Hxn & Hsvn).
    rewrite (release_last _ _ _ Hxn) by (cbn [refs]; lia).
    cbn [buffer dirty refs]. rewrite Hndn, Hsvn. reflexivity. }
  assert (Hs3 : shared_handle (node s3) = None).
  { unfold obs in Hlast. destruct (dirty x) as [[|]|];
      injection Hlast as -> _ _; reflexivity. }
  refine (conj _ (conj _ (conj _ (conj _ (conj _ (conj _ (conj _ _))))))).
  - intros k Hk. destruct k as [|k].
    + cbn [opens]. rewrite (open_first _ _ Hs). reflexivity.
    + pose proof (Hopens k) as Hk'. apply obs_inv in Hk'.
      destruct Hk' as (Hndk & Hxk & _).
      rewrite (open_again _ h _ 0 ltac:(rewrite Hndk; exact Hnd1) Hxk).
      reflexivity.
  - intros [|k] Hk; [apply counts_none, Hs|].
    apply (counts_live _ h _ _ _ _ (Hopens k) Hnd1 eq_refl). cbn [refs]. lia.
  - apply (counts_live _ h _ _ _ _ Ho2 Hnd1 Hr2). lia.
  - intros k Hk. destruct (decide (k = S n)) as [->|Hne].
    + fold s3. rewrite Z.sub_diag. apply counts_none, Hs3.
    + apply (counts_live _ h _ _ _ _ (Hrel k ltac:(lia)) Hnd1 eq_refl).
      cbn [refs]. lia.
  - intros k Hk. pose proof (Hrel k Hk) as Hk'. apply obs_inv in Hk'.
    apply Hk'.
  - apply (counts_none s3 Hs3).
  - exact Hs3.
  - exists x.
    assert (Hend : exists x3,
              handles s3 !! h = Some x3 /\ refs x3 = 0 /\
              saves s3 = saves s ++ match dirty x with
                                    | Some true => [getvalue (buffer x)]
                                    | _ => []
                                    end /\
              data (node s3) = match dirty x with
                               | Some true => getvalue (buffer x)
                               | _ => data (node s)
                               end).
    { unfold obs in Hlast.
      destruct (dirty x) as [[|]|]; injection Hlast as Hn3 Hx3 Hsv3;
        eexists; (split; [exact Hx3|]); (split; [reflexivity|]);
        rewrite Hsv3, Hn3, ?app_nil_r; split; reflexivity. }
    destruct Hend as (x3 & H1 & H2 & H3 & H4). exists x3.
    split; [exact Hx2|]. split; [exact H1|]. split; [exact H2|].
    split; [exact H3|]. split; [exact H4|].
    intros Hdx. destruct Hd2 as [Hd2|(_ & Hrw & Hex)]; [congruence|].
    rewrite HndN in Hrw. split; [exact Hrw|exact Hex].
Qed.

End Buffered.

(** Two sessions on a writable file with the content [b"old"]; one writes
    [b"hi"] at offset 0: the last release saves [b"hid"], once. *)
Example two_sessions_one_write :
  let s := mkStore (init ["o"; "l"; "d"]%byte None true) [] [] in
  let s2 := run_ops 0 [Write ["h"; "i"]%byte 0; Read 2 0] (opens 2 s) in
  saves (releases 0 1 s2) = [] /\
  saves (releases 0 2 s2) = [["h"; "i"; "d"]%byte] /\
  data (node (releases 0 2 s2)) = ["h"; "i"; "d"]%byte /\
  session_count s2 = 2 /\ session_count (releases 0 1 s2) = 1 /\
  shared_handle (node (releases 0 2 s2)) = None.
Proof. repeat split. Qed.

(** [node.truncate(0)] with no session open saves the empty content. *)
Example truncate_then_load :
  let s := mkStore (init ["o"; "l"; "d"]%byte None true) [] [] in
  (truncate 0 s).2 = Ok tt /\
  data (node (truncate 0 s).1) = [] /\ saves (truncate 0 s).1 = [[]] /\
  shared_handle (node (truncate 0 s).1) = None.
Proof. repeat split. Qed.

(** A write on a file that is not writable raises and saves nothing. *)
Example write_read_only :
  let s := mkStore (init ["o"; "l"; "d"]%byte None false) [] [] in
  (write 0 ["h"; "i"]%byte 0 (opens 1 s)).2
  = Raise (AttributeError "errno" "ENOPERM") /\
  saves (releases 0 1 (run_ops 0 [Write ["h"; "i"]%byte 0] (opens 1 s))) = [].
Proof. repeat split. Qed.

(** Two sessions on a writable file, one write. *)
Lemma open_release_cycle_witness :
  let s := mkStore (init ["o"; "l"; "d"]%byte None true) [] [] in
  let s3 := releases 0 2 (run_ops 0 [Write ["h"; "i"]%byte 0] (opens 2 s)) in
  session_count s3 = 0 /\ shared_handle (node s3) = None.
Proof.
  intros s s3.
  pose proof (open_release_cycle s 2 [Write ["h"; "i"]%byte 0]
                eq_refl ltac:(lia)) as H.
  cbn zeta in H. destruct H as (_ & _ & _ & _ & _ & H1 & H2 & _).
  split; [exact H1|exact H2].
Defined.

(** A writable file with content, no session open. *)
Lemma shared_buffer_coherence_witness :
  exists s' a b,
    write_then_read ["h"; "i"]%byte 0 2 0
      (mkStore (init ["o"; "l"; "d"]%byte None true) [] [])
    = (s', Ok (a, b, ["h"; "i"]%byte)) /\ a = b.
Proof.
  apply (shared_buffer_coherence
           (mkStore (init ["o"; "l"; "d"]%byte None true) [] [])
           ["h"; "i"]%byte); reflexivity.
Defined.

End BlobFileFacts.

(** ** GeneratorFile: the stream that the reads deliver *)

Module GeneratorFileStream.
Import GeneratorFile.

Section Stream.
Variable Bytes_Like : Type.
Variable as_bytes : Bytes_Like -> bytes.

Abbreviation Cursor := (Cursor Bytes_Like).
Abbreviation read := (read Bytes_Like as_bytes).
Abbreviation reads := (reads Bytes_Like as_bytes).
Abbreviation read_loop := (read_loop Bytes_Like as_bytes).
Abbreviation read_body := (read_body Bytes_Like as_bytes).
Abbreviation remaining := (remaining Bytes_Like as_bytes).

(** A pass of the loop body moves bytes from the stream to the result, in
    order, and never more than are wanted. *)
Lemma read_body_stream (size : Z) (c : Cursor) (blob r : bytes) :
  current_blob _ c = Some blob -> len r < size ->
  exists d,
    (read_body size c blob r).2 = r ++ d /\
    remaining c = d ++ remaining (read_body size c blob r).1 /\
    c_min_read_len _ (read_body size c blob r).1 = c_min_read_len _ c /\
    len (read_body size c blob r).2 <= size.
Proof.
  intros Hb Hlt. unfold read_body, GeneratorFile.read_body, remaining,
    GeneratorFile.remaining, slice, len in *. rewrite Hb.
  set (p := current_blob_position _ c).
  destruct (Z.ltb_spec 0 (Z.min (size - Z.of_nat (length r))
              (Z.of_nat (length blob) - Z.of_nat p))) as [Hn|Hn].
  - set (n := Z.to_nat _).
    exists (take n (drop p blob)). cbn [fst snd current_blob c_generator
      current_blob_position c_min_read_len]. rewrite ?Hb.
    replace (p + n - p)%nat with n by lia.
    split; [reflexivity|]. split.
    + rewrite app_assoc. f_equal. rewrite <- drop_drop. symmetry.
      apply take_drop.
    + split; [reflexivity|]. rewrite length_app, length_take. lia.
  - assert (Hd : drop p blob = []) by (apply drop_ge; lia).
    exists []. rewrite Hd, app_nil_r.
    destruct (c_generator _ c) as [|x g]; cbn; rewrite ?drop_0;
      repeat split; try reflexivity; lia.
Qed.

(** The loop: what it returns extends the result by a prefix of the stream,
    and it stops short of [size] only at the end of the stream or at the
    threshold. *)
Lemma read_loop_stream (fuel : nat) :
  forall (size : Z) (c c' : Cursor) (r out : bytes),
    read_loop fuel size c r = Some (c', out) ->
    exists d,
      out = r ++ d /\
      remaining c = d ++ remaining c' /\
      c_min_read_len _ c' = c_min_read_len _ c /\
      (len r <= size -> len out <= size) /\
      (size <= len r -> d = [] /\ c' = c) /\
      (len out < size ->
       current_blob _ c' = None \/
       (0 < c_min_read_len _ c /\ c_min_read_len _ c <= len out)).
Proof.
  induction fuel as [|fuel IH]; intros size c c' r out Hrun.
  - cbn in Hrun. destruct (current_blob _ c) as [blob|] eqn:Hb.
    + destruct (Z.ltb_spec (len r) size) as [Hlt|Hge]; [discriminate|].
      injection Hrun as <- <-. exists []. rewrite app_nil_r.
      repeat split; auto; lia.
    + injection Hrun as <- <-. exists []. rewrite app_nil_r.
      repeat split; auto.
  - cbn in Hrun. destruct (current_blob _ c) as [blob|] eqn:Hb.
    + destruct (Z.ltb_spec (len r) size) as [Hlt|Hge].
      * destruct (read_body_stream size c blob r Hb Hlt)
          as (d & Hr & Hrem & Hm & Hle).
        destruct (read_body size c blob r) as [c1 r1]. cbn [fst snd] in *.
        destruct (Z.ltb_spec 0 (c_min_read_len _ c1)) as [Hpos|Hnpos];
          cbn [andb] in Hrun.
        -- destruct (Z.leb_spec (c_min_read_len _ c1) (len r1)) as [Hth|Hth].
           ++ injection Hrun as <- <-. exists d.
              split; [exact Hr|]. split; [exact Hrem|]. split; [exact Hm|].
              split; [auto|]. split; [lia|].
              intros _. right. rewrite <- Hm. lia.
           ++ destruct (IH _ _ _ _ _ Hrun) as (d' & -> & Hrem' & Hm' & Hle' & _ & Hex).
              subst r1. exists (d ++ d'). rewrite app_assoc.
              split; [reflexivity|].
              split; [rewrite Hrem, Hrem', app_assoc; reflexivity|].
              split; [congruence|]. split; [intros _; apply Hle', Hle|].
              split; [lia|].
              intros Hs. destruct (Hex Hs) as [Hn|Hn]; [left; exact Hn|].
              right. rewrite <- Hm. exact Hn.
        -- destruct (IH _ _ _ _ _ Hrun) as (d' & -> & Hrem' & Hm' & Hle' & _ & Hex).
           subst r1. exists (d ++ d'). rewrite app_assoc.
           split; [reflexivity|].
           split; [rewrite Hrem, Hrem', app_assoc; reflexivity|].
           split; [congruence|]. split; [intros _; apply Hle', Hle|].
           split; [lia|].
           intros Hs. destruct (Hex Hs) as [Hn|Hn]; [left; exact Hn|].
           right. rewrite <- Hm. exact Hn.
      * injection Hrun as <- <-. exists []. rewrite app_nil_r.
        repeat split; auto; lia.
    + injection Hrun as <- <-. exists []. rewrite app_nil_r.
      repeat split; auto.
Qed.

Lemma remaining_exhausted (c : Cursor) :
  current_blob _ c = None -> remaining c = [].
Proof.
  intros H. unfold remaining, GeneratorFile.remaining. rewrite H. reflexivity.
Qed.

(** What one [read] does, in terms of the stream. *)
Lemma read_stream (c : Cursor) (size offset : Z) :
  exists c' out,
    read c size offset = Some (c', out) /\
    remaining c = out ++ remaining c' /\
    c_min_read_len _ c' = c_min_read_len _ c /\
    (0 <= size -> len out <= size) /\
    (size <= 0 -> out = [] /\ c' = c) /\
    (len out < size ->
     current_blob _ c' = None \/
     (0 < c_min_read_len _ c /\ c_min_read_len _ c <= len out)).
Proof.
  destruct (GeneratorFileFacts.read_total _ as_bytes c size offset)
    as [[c' out] Hrun].
  exists c', out. split; [exact Hrun|].
  apply read_loop_stream in Hrun.
  destruct Hrun as (d & Ho & Hrem & Hm & Hle & Hz & Hex).
  cbn [app] in Ho. subst d. auto.
Qed.

(** X1: a read returns the next bytes of the stream, in order, none lost
    and none twice: what it returns, followed by what the session has still
    to deliver afterwards, is what it had to deliver before; it never returns
    more than [size] bytes, and nothing for a [size] that is not positive. *)
Theorem read_delivers_stream (c : Cursor) (size offset : Z) :
  exists c' out,
    read c size offset = Some (c', out) /\
    remaining c = out ++ remaining c' /\
    len out <= Z.max 0 size.
Proof.
  destruct (read_stream c size offset)
    as (c' & out & Hrun & Hrem & _ & Hle & Hz & _).
  exists c', out. split; [exact Hrun|]. split; [exact Hrem|].
  destruct (Z.le_gt_cases size 0) as [Hs|Hs].
  - destruct (Hz Hs) as [-> _]. unfold len. cbn. lia.
  - specialize (Hle ltac:(lia)). lia.
Qed.

(** Without a threshold a read takes what is asked for, as far as the
    stream goes. *)
Lemma read_take (c : Cursor) (size offset : Z) :
  c_min_read_len _ c <= 0 ->
  exists c',
    read c size offset = Some (c', take (Z.to_nat size) (remaining c)) /\
    remaining c' = drop (Z.to_nat size) (remaining c).
Proof.
  intros Hm.
  destruct (read_stream c size offset)
    as (c' & out & Hrun & Hrem & _ & Hle & Hz & Hex).
  exists c'. destruct (Z.le_gt_cases size 0) as [Hs|Hs].
  - destruct (Hz Hs) as [-> ->]. replace (Z.to_nat size) with 0%nat by lia.
    rewrite take_0, drop_0. split; [exact Hrun|reflexivity].
  - specialize (Hle ltac:(lia)). unfold len in *.
    destruct (Z.lt_ge_cases (Z.of_nat (length out)) size) as [Hlt|Hge].
    + destruct (Hex Hlt) as [Hn|Hn]; [|lia].
      rewrite (remaining_exhausted _ Hn), app_nil_r in Hrem.
      rewrite (remaining_exhausted _ Hn), Hrem.
      rewrite take_ge, drop_ge by lia. split; [exact Hrun|reflexivity].
    + rewrite Hrem. replace (Z.to_nat size) with (length out) by lia.
      rewrite take_app_length, drop_app_length. split; [exact Hrun|reflexivity].
Qed.

(** X2: with no positive [min_read_len], a read returns exactly the first
    [size] bytes that the session has still to deliver (all of them when
    there are fewer), across chunk boundaries, and leaves the rest. *)
Theorem read_exact (c : Cursor) (size offset : Z) :
  c_min_read_len _ c <= 0 ->
  exists c',
    read c size offset = Some (c', take (Z.to_nat size) (remaining c)) /\
    remaining c' = drop (Z.to_nat size) (remaining c).
Proof. intros Hm. apply read_take, Hm. Qed.

(** X3: for a positive [size], a read returns the empty byte string exactly
    when the session has nothing left to deliver: an empty result means the
    end of the stream and nothing else, whatever [min_read_len] is. *)
Theorem read_empty_iff_end (c : Cursor) (size offset : Z) :
  0 < size ->
  exists c' out,
    read c size offset = Some (c', out) /\
    (out = [] <-> remaining c = []).
Proof.
  intros Hs.
  destruct (read_stream c size offset)
    as (c' & out & Hrun & Hrem & _ & _ & _ & Hex).
  exists c', out. split; [exact Hrun|]. split.
  - intros ->. destruct (Hex ltac:(unfold len; cbn; lia)) as [Hn|Hn].
    + rewrite Hrem, (remaining_exhausted _ Hn). reflexivity.
    + unfold len in Hn. cbn in Hn. lia.
  - intros H. rewrite H in Hrem. symmetry in Hrem.
    apply app_eq_nil in Hrem. apply Hrem.
Qed.

(** X4: a read returns fewer than [size] bytes only when it has reached
    the end of the stream, or when [min_read_len] is positive and it has got
    at least that many bytes. *)
Theorem read_short_only_at_end_or_threshold (c : Cursor) (size offset : Z) :
  exists c' out,
    read c size offset = Some (c', out) /\
    (len out < size ->
     (remaining c' = [] /\ out = remaining c) \/
     (0 < c_min_read_len _ c /\ c_min_read_len _ c <= len out)).
Proof.
  destruct (read_stream c size offset)
    as (c' & out & Hrun & Hrem & _ & _ & _ & Hex).
  exists c', out. split; [exact Hrun|]. intros Hlt.
  destruct (Hex Hlt) as [Hn|Hn]; [left|right; exact Hn].
  rewrite Hrem, (remaining_exhausted _ Hn), app_nil_r. auto.
Qed.

(** X5: any number of successive reads, of any sizes and offsets, deliver
    the stream piecewise: their results, one after the other, followed by
    what is left, are what the session had to deliver at the start. *)
Theorem reads_deliver_stream (calls : list (Z * Z)) : forall c : Cursor,
  exists c' outs,
    reads c calls = Some (c', outs) /\
    length outs = length calls /\
    remaining c = concat outs ++ remaining c'.
Proof.
  induction calls as [|[size offset] calls IH]; intros c.
  - exists c, []. repeat split.
  - destruct (read_stream c size offset)
      as (c1 & out & Hrun & Hrem & _).
    destruct (IH c1) as (c' & outs & Hruns & Hlen & Hrems).
    exists c', (out :: outs). cbn [GeneratorFile.reads].
    rewrite Hrun, Hruns.
    split; [reflexivity|]. split; [cbn; lia|].
    cbn [concat]. rewrite <- app_assoc, <- Hrems. exact Hrem.
Qed.

(** X6: with no positive [min_read_len], how the producer cuts the stream
    into chunks does not show: two sessions that have the same bytes still to
    deliver return the same results for the same sequence of reads. *)
Theorem reads_independent_of_chunking (calls : list (Z * Z)) :
  forall c1 c2 : Cursor,
    c_min_read_len _ c1 <= 0 -> c_min_read_len _ c2 <= 0 ->
    remaining c1 = remaining c2 ->
    exists c1' c2' outs,
      reads c1 calls = Some (c1', outs) /\
      reads c2 calls = Some (c2', outs) /\
      remaining c1' = remaining c2'.
Proof.
  induction calls as [|[size offset] calls IH]; intros c1 c2 Hm1 Hm2 Heq.
  - exists c1, c2, []. repeat split. exact Heq.
  - destruct (read_take c1 size offset Hm1) as (d1 & Hr1 & Hd1).
    destruct (read_take c2 size offset Hm2) as (d2 & Hr2 & Hd2).
    destruct (read_stream c1 size offset) as (e1 & o1 & He1 & _ & Hk1 & _).
    destruct (read_stream c2 size offset) as (e2 & o2 & He2 & _ & Hk2 & _).
    rewrite Hr1 in He1. injection He1 as <- _.
    rewrite Hr2 in He2. injection He2 as <- _.
    destruct (IH d1 d2 ltac:(lia) ltac:(lia) ltac:(congruence))
      as (c1' & c2' & outs & H1 & H2 & H3).
    exists c1', c2', (take (Z.to_nat size) (remaining c1) :: outs).
    cbn [GeneratorFile.reads].
    rewrite Hr1, Hr2, H1, H2, Heq. repeat split. exact H3.
Qed.

End Stream.

(** A session in the middle of the second of three chunks. *)
Lemma read_exact_witness :
  exists c',
    GeneratorFile.read bytes (fun b => b)
      (mkCursor bytes [["f"]%byte] (Some ["c"; "d"; "e"]%byte) 1 (-1)) 3 0
    = Some (c', ["d"; "e"; "f"]%byte) /\
    GeneratorFile.remaining bytes (fun b => b) c' = [].
Proof.
  apply (read_exact bytes (fun b => b)
           (mkCursor bytes [["f"]%byte] (Some ["c"; "d"; "e"]%byte) 1 (-1)) 3 0).
  cbn. lia.
Defined.

(** A session at the end of its last chunk, and one before it. *)
Lemma read_empty_iff_end_witness :
  (exists c' out,
     GeneratorFile.read bytes (fun b => b)
       (mkCursor bytes [] (Some ["a"]%byte) 1 5) 4 0 = Some (c', out) /\
     (out = [] <->
      GeneratorFile.remaining bytes (fun b => b)
        (mkCursor bytes [] (Some ["a"]%byte) 1 5) = [])) /\
  (exists c' out,
     GeneratorFile.read bytes (fun b => b)
       (mkCursor bytes [[]; ["b"]%byte] (Some ["a"]%byte) 1 5) 4 0
     = Some (c', out) /\
     (out = [] <->
      GeneratorFile.remaining bytes (fun b => b)
        (mkCursor bytes [[]; ["b"]%byte] (Some ["a"]%byte) 1 5) = [])).
Proof.
  split.
  - apply (read_empty_iff_end bytes (fun b => b)
             (mkCursor bytes [] (Some ["a"]%byte) 1 5) 4 0). lia.
  - apply (read_empty_iff_end bytes (fun b => b)
             (mkCursor bytes [[]; ["b"]%byte] (Some ["a"]%byte) 1 5) 4 0). lia.
Defined.

(** The stream [b"abcde"] cut as [ab|cde] and as [a|bcd||e]. *)
Lemma reads_independent_of_chunking_witness :
  exists c1' c2' outs,
    GeneratorFile.reads bytes (fun b => b)
      (fresh_cursor bytes [["a"; "b"]%byte; ["c"; "d"; "e"]%byte] (-1))
      [(4, 0); (4, 4)] = Some (c1', outs) /\
    GeneratorFile.reads bytes (fun b => b)
      (fresh_cursor bytes [["a"]%byte; ["b"; "c"; "d"]%byte; []; ["e"]%byte] 0)
      [(4, 0); (4, 4)] = Some (c2', outs) /\
    GeneratorFile.remaining bytes (fun b => b) c1'
    = GeneratorFile.remaining bytes (fun b => b) c2'.
Proof.
  apply (reads_independent_of_chunking bytes (fun b => b) [(4, 0); (4, 4)]
           (fresh_cursor bytes [["a"; "b"]%byte; ["c"; "d"; "e"]%byte] (-1))
           (fresh_cursor bytes [["a"]%byte; ["b"; "c"; "d"]%byte; []; ["e"]%byte] 0)).
  - cbn. lia.
  - cbn. lia.
  - reflexivity.
Defined.

End GeneratorFileStream.

(** ** BlobFile: writes, flushes and truncations *)

Module BlobFileSessions.
Import BlobFile.

Section Sessions.
Implicit Types (s : Store) (h : nat) (x : Handle) (d v : bytes).


(** The last [release] of a dirty handle, and of one that is not dirty. *)
Lemma release_last_dirty s h x :
  handles s !! h = Some x -> refs x - 1 = 0 -> dirty x = Some true ->
  release h s
  = (mkStore (set_shared_handle None (set_data (getvalue (buffer x)) (node s)))
             (<[h := mkHandle (buffer x) None 0]> (handles s))
             (saves s ++ [getvalue (buffer x)]),
     Ok tt).
Proof.
  intros Hx Hn Hd. unfold release, bind.
  rewrite (BlobFileFacts.get_handle_ok _ _ _ Hx).
  unfold put_handle. rewrite Hn. cbn [Z.eqb]. unfold flush, bind.
  rewrite (BlobFileFacts.get_handle_ok _ _ _ (BlobFileFacts.lookup_put _ _ _ _ Hx)).
  cbn [dirty buffer refs]. rewrite Hd. cbn. unfold put. cbn.
  rewrite list_insert_insert_eq. reflexivity.
Qed.

Lemma release_last_clean s h x :
  handles s !! h = Some x -> refs x - 1 = 0 -> dirty x <> Some true ->
  release h s
  = (mkStore (set_shared_handle None (node s))
             (<[h := mkHandle (buffer x) (dirty x) 0]> (handles s))
             (saves s),
     Ok tt).
Proof.
  intros Hx Hn Hd. unfold release, bind.
  rewrite (BlobFileFacts.get_handle_ok _ _ _ Hx).
  unfold put_handle. rewrite Hn. cbn [Z.eqb]. unfold flush, bind.
  rewrite (BlobFileFacts.get_handle_ok _ _ _ (BlobFileFacts.lookup_put _ _ _ _ Hx)).
  cbn [dirty buffer refs].
  destruct (dirty x) as [[|]|]; [contradiction Hd; reflexivity|reflexivity..].
Qed.

(** [handle.truncate] on a writable file, with a size that is not
    negative. *)
Lemma Handle_truncate_ok s h x size :
  rw (node s) = true -> handles s !! h = Some x -> 0 <= size ->
  Handle_truncate h size s
  = (put h (mkHandle (mkBytesIO (take (Z.to_nat size) (getvalue (buffer x)))
                                (tell (buffer x)))
                     (Some true) (refs x)) s,
     Ok tt).
Proof.
  intros Hrw Hx Hs. unfold Handle_truncate, bind, get. rewrite Hrw. cbn [negb].
  rewrite (BlobFileFacts.get_handle_ok _ _ _ Hx).
  unfold put_handle, lift, bio_truncate.
  destruct (Z.ltb_spec size 0); [lia|].
  rewrite BlobFileFacts.put_put. reflexivity.
Qed.

Lemma lookup_fresh s x :
  (handles s ++ [x]) !! length (handles s) = Some x.
Proof. rewrite lookup_app_r by lia. rewrite Nat.sub_diag. reflexivity. Qed.



Lemma flush_dirty s h x :
  handles s !! h = Some x -> dirty x = Some true ->
  flush h s
  = (mkStore (set_data (getvalue (buffer x)) (node s))
             (<[h := mkHandle (buffer x) None (refs x)]> (handles s))
             (saves s ++ [getvalue (buffer x)]),
     Ok tt).
Proof.
  intros Hx Hd. unfold flush, bind.
  rewrite (BlobFileFacts.get_handle_ok _ _ _ Hx), Hd. reflexivity.
Qed.

Lemma flush_clean s h x :
  handles s !! h = Some x -> dirty x <> Some true -> flush h s = (s, Ok tt).
Proof.
  intros Hx Hd. unfold flush, bind.
  rewrite (BlobFileFacts.get_handle_ok _ _ _ Hx).
  destruct (dirty x) as [[|]|]; [contradiction Hd; reflexivity|reflexivity..].
Qed.

(** X9: [flush] saves the content of the buffer exactly when the handle is
    dirty, and then the committed data are that content; a second [flush]
    right after it saves nothing and changes nothing. *)
Theorem flush_saves_once s h x :
  handles s !! h = Some x ->
  (flush h s).2 = Ok tt /\
  saves (flush h s).1
  = saves s ++ match dirty x with
               | Some true => [getvalue (buffer x)]
               | _ => []
               end /\
  data (node (flush h s).1)
  = match dirty x with
    | Some true => getvalue (buffer x)
    | _ => data (node s)
    end /\
  flush h (flush h s).1 = ((flush h s).1, Ok tt).
Proof.
  intros Hx. destruct (dirty x) as [[|]|] eqn:Hd.
  - rewrite (flush_dirty _ _ _ Hx Hd). cbn [fst snd].
    repeat split.
    eapply flush_clean with (x := mkHandle (buffer x) None (refs x)).
    + cbn [handles]. apply list_lookup_insert_eq.
      apply lookup_lt_Some in Hx. exact Hx.
    + discriminate.
  - rewrite (flush_clean _ _ _ Hx) by (rewrite Hd; discriminate).
    cbn [fst snd]. rewrite app_nil_r. repeat split.
    apply (flush_clean _ _ _ Hx). rewrite Hd. discriminate.
  - rewrite (flush_clean _ _ _ Hx) by (rewrite Hd; discriminate).
    cbn [fst snd]. rewrite app_nil_r. repeat split.
    apply (flush_clean _ _ _ Hx). rewrite Hd. discriminate.
Qed.


(** X11: [truncate] on a writable file with no session open, for a size
    from 0 to the largest [ssize_t], cuts the committed data to [size] bytes
    (and leaves them as they are when they are not longer), saves once, and
    leaves no session open. *)
Theorem truncate_commits s size :
  shared_handle (node s) = None -> rw (node s) = true ->
  0 <= size <= ssize_max ->
  exists s',
    truncate size s = (s', Ok tt) /\
    data (node s') = take (Z.to_nat size) (data (node s)) /\
    saves s' = saves s ++ [take (Z.to_nat size) (data (node s))] /\
    shared_handle (node s') = None.
Proof.
  intros Hs Hrw [Hsize _]. unfold truncate, bind.
  rewrite (BlobFileFacts.open_first _ _ Hs).
  set (h := length (handles s)).
  set (x1 := mkHandle (mkBytesIO (data (node s)) 0) (Some false) 1).
  set (s1 := mkStore _ (handles s ++ [x1]) (saves s)).
  assert (Hx1 : handles s1 !! h = Some x1) by apply lookup_fresh.
  unfold try_finally.
  rewrite (Handle_truncate_ok s1 h x1 size Hrw Hx1 Hsize).
  set (x2 := mkHandle _ (Some true) (refs x1)).
  pose proof (BlobFileFacts.lookup_put _ _ _ x2 Hx1) as Hx2.
  rewrite (release_last_dirty (put h x2 s1) h x2 Hx2 eq_refl eq_refl).
  eexists. repeat split.
Qed.

(** X12: [truncate] on a file that is not writable, with no session open,
    fails; the committed data stay, nothing is saved, and the session that
    it opened is released. *)
Theorem truncate_read_only s size :
  shared_handle (node s) = None -> rw (node s) = false ->
  exists s' e,
    truncate size s = (s', Raise e) /\
    data (node s') = data (node s) /\
    saves s' = saves s /\
    shared_handle (node s') = None /\ session_count s' = 0.
Proof.
  intros Hs Hrw. unfold truncate, bind.
  rewrite (BlobFileFacts.open_first _ _ Hs).
  set (h := length (handles s)).
  set (x1 := mkHandle (mkBytesIO (data (node s)) 0) (Some false) 1).
  set (s1 := mkStore _ (handles s ++ [x1]) (saves s)).
  assert (Hx1 : handles s1 !! h = Some x1) by apply lookup_fresh.
  unfold try_finally, Handle_truncate, bind, get.
  change (rw (node s1)) with (rw (node s)). rewrite Hrw. cbn [negb raise].
  rewrite (release_last_clean s1 h x1 Hx1 eq_refl ltac:(discriminate)).
  eexists _, _. repeat split.
Qed.

(** X13: [truncate] with a negative size, not below the smallest
    [ssize_t], on a writable file with no session open raises [ValueError],
    after the handle was marked dirty: the release in the [finally] clause
    still calls [save], with the data as they were. *)
Theorem truncate_negative_saves s size :
  shared_handle (node s) = None -> rw (node s) = true ->
  ssize_min <= size < 0 ->
  exists s',
    truncate size s = (s', Raise (ValueError "negative size value")) /\
    data (node s') = data (node s) /\
    saves s' = saves s ++ [data (node s)] /\
    shared_handle (node s') = None.
Proof.
  intros Hs Hrw [_ Hsize]. unfold truncate, bind.
  rewrite (BlobFileFacts.open_first _ _ Hs).
  set (h := length (handles s)).
  set (x1 := mkHandle (mkBytesIO (data (node s)) 0) (Some false) 1).
  set (s1 := mkStore _ (handles s ++ [x1]) (saves s)).
  assert (Hx1 : handles s1 !! h = Some x1) by apply lookup_fresh.
  unfold try_finally, Handle_truncate, bind, get.
  change (rw (node s1)) with (rw (node s)). rewrite Hrw. cbn [negb].
  rewrite (BlobFileFacts.get_handle_ok _ _ _ Hx1).
  unfold put_handle, lift, bio_truncate.
  destruct (Z.ltb_spec size 0); [|lia].
  set (x2 := mkHandle (buffer x1) (Some true) (refs x1)).
  pose proof (BlobFileFacts.lookup_put _ _ _ x2 Hx1) as Hx2.
  rewrite (release_last_dirty (put h x2 s1) h x2 Hx2 eq_refl eq_refl).
  eexists. repeat split.
Qed.

(** Writing at the end of the content appends. *)
Lemma bio_write_append v d :
  getvalue (bio_write (mkBytesIO v (length v)) d) = v ++ d.
Proof.
  destruct d as [|c d]; [cbn; rewrite app_nil_r; reflexivity|].
  unfold bio_write. cbn [getvalue tell].
  rewrite firstn_all, Nat.sub_diag. cbn [replicate app].
  rewrite drop_ge by lia. rewrite app_nil_r. reflexivity.
Qed.

(** X14: while a session is open, [getattr] reports the size of the buffer,
    not of the committed data: after a write at the end of a writable file,
    the size is that of the data plus that of the write although [load]
    still returns the old data; after the release both agree. *)
Theorem getattr_reports_buffer s d :
  shared_handle (node s) = None -> rw (node s) = true ->
  exists s',
    (let* h := open 2 in
     let* _ := write h d (len (data (node s))) in
     let* size := getattr_size in
     let* committed := load in
     let* _ := release h in
     let* size' := getattr_size in
     let* committed' := load in
     ret (size, committed, size', committed')) s
    = (s', Ok (len (data (node s)) + len d, data (node s),
               len (data (node s)) + len d, data (node s) ++ d)).
Proof.
  intros Hs Hrw. unfold bind.
  rewrite (BlobFileFacts.open_first _ _ Hs).
  set (h := length (handles s)).
  set (x1 := mkHandle (mkBytesIO (data (node s)) 0) (Some false) 1).
  set (s1 := mkStore _ (handles s ++ [x1]) (saves s)).
  assert (Hx1 : handles s1 !! h = Some x1) by apply lookup_fresh.
  rewrite (BlobFileFacts.write_ok s1 h x1 d _ Hrw Hx1) by (unfold len; lia).
  unfold len at 1. rewrite Nat2Z.id.
  change (getvalue (buffer x1)) with (data (node s)).
  set (x2 := mkHandle _ (Some true) (refs x1)).
  pose proof (BlobFileFacts.lookup_put _ _ _ x2 Hx1) as Hx2.
  unfold getattr_size at 1, bind, get.
  cbn [node put s1 shared_handle set_shared_handle].
  rewrite (BlobFileFacts.get_handle_ok _ _ _ Hx2). unfold ret at 1.
  unfold load at 1, bind, get, ret at 1.
  rewrite (release_last_dirty (put h x2 s1) h x2 Hx2 eq_refl eq_refl).
  unfold getattr_size, load, bind, get, ret.
  cbn [node shared_handle set_shared_handle set_data data buffer x2].
  rewrite bio_write_append. unfold len. rewrite length_app, Nat2Z.inj_add.
  eexists. reflexivity.
Qed.

End Sessions.



Lemma flush_saves_once_witness :
  let s := (write 0 ["h"; "i"]%byte 0
              (opens 1 (mkStore (init ["o"; "l"; "d"]%byte None true) [] []))).1 in
  saves (flush 0 s).1 = [["h"; "i"; "d"]%byte] /\
  flush 0 (flush 0 s).1 = ((flush 0 s).1, Ok tt).
Proof.
  intros s.
  pose proof (flush_saves_once s 0%nat
                (mkHandle (mkBytesIO ["h"; "i"; "d"]%byte 2) (Some true) 1)
                eq_refl) as H.
  destruct H as (_ & H1 & _ & H2). split; [exact H1|exact H2].
Defined.


Lemma truncate_commits_witness :
  exists s',
    truncate 1 (mkStore (init ["o"; "l"; "d"]%byte None true) [] [])
    = (s', Ok tt) /\
    data (node s') = ["o"]%byte /\
    saves s' = [] ++ [["o"]%byte] /\
    shared_handle (node s') = None.
Proof.
  apply (truncate_commits
           (mkStore (init ["o"; "l"; "d"]%byte None true) [] []) 1);
    [reflexivity | reflexivity | unfold ssize_max; lia].
Defined.

Lemma truncate_read_only_witness :
  exists s' e,
    truncate 0 (mkStore (init ["o"; "l"; "d"]%byte None false) [] [])
    = (s', Raise e) /\
    data (node s') = ["o"; "l"; "d"]%byte /\
    saves s' = [] /\
    shared_handle (node s') = None /\ session_count s' = 0.
Proof.
  apply (truncate_read_only
           (mkStore (init ["o"; "l"; "d"]%byte None false) [] []) 0);
    reflexivity.
Defined.

Lemma truncate_negative_saves_witness :
  exists s',
    truncate (-1) (mkStore (init ["o"; "l"; "d"]%byte None true) [] [])
    = (s', Raise (ValueError "negative size value")) /\
    data (node s') = ["o"; "l"; "d"]%byte /\
    saves s' = [] ++ [["o"; "l"; "d"]%byte] /\
    shared_handle (node s') = None.
Proof.
  apply (truncate_negative_saves
           (mkStore (init ["o"; "l"; "d"]%byte None true) [] []) (-1));
    [reflexivity | reflexivity | unfold ssize_min; lia].
Defined.

Lemma getattr_reports_buffer_witness :
  exists s',
    (let* h := open 2 in
     let* _ := write h ["!"]%byte 3 in
     let* size := getattr_size in
     let* committed := load in
     let* _ := release h in
     let* size' := getattr_size in
     let* committed' := load in
     ret (size, committed, size', committed'))
      (mkStore (init ["o"; "l"; "d"]%byte None true) [] [])
    = (s', Ok (3 + 1, ["o"; "l"; "d"]%byte, 3 + 1, ["o"; "l"; "d"; "!"]%byte)).
Proof.
  apply (getattr_reports_buffer
           (mkStore (init ["o"; "l"; "d"]%byte None true) [] [])
           ["!"]%byte); reflexivity.
Defined.

End BlobFileSessions.

(** ** Dictionaries: unique keys *)

Module DictUnique.
Section Dict.
Context {V : Type}.
Implicit Types (d : Dict.t V) (k : string) (v : V).

Lemma get_None k d : Dict.get k d = None <-> k ∉ Dict.keys d.
Proof.
  induction d as [|[k0 v0] d IH]; cbn.
  - split; [intros _; apply not_elem_of_nil|reflexivity].
  - rewrite not_elem_of_cons.
    destruct (String.eqb_spec k0 k) as [->|Hne].
    + split; [discriminate|intros [H _]; contradiction].
    + rewrite IH. split; [intros H; split; [congruence|exact H]|intros [_ H]; exact H].
Qed.

Lemma get_Some_keys k d : is_Some (Dict.get k d) <-> k ∈ Dict.keys d.
Proof.
  destruct (Dict.get k d) as [v|] eqn:E.
  - split; [intros _|eauto].
    destruct (decide (k ∈ Dict.keys d)) as [H|H]; [exact H|].
    apply get_None in H. congruence.
  - split; [intros [? [=]]|]. intros H. apply get_None in E. contradiction.
Qed.

(** An assignment keeps the keys unique. *)
Lemma set_NoDup k v d : NoDup (Dict.keys d) -> NoDup (Dict.keys (Dict.set k v d)).
Proof.
  intros H. destruct (Dict.get k d) as [v0|] eqn:E.
  - rewrite DictFacts.keys_set_present; [exact H|].
    unfold Dict.mem. rewrite E. reflexivity.
  - rewrite DictFacts.keys_set_absent by exact E.
    apply NoDup_app. split; [exact H|]. split.
    + intros x Hx Hx'. apply list_elem_of_singleton in Hx'. subst x.
      apply get_None in E. contradiction.
    + apply NoDup_singleton.
Qed.

Lemma del_Some k v d : Dict.get k d = Some v -> is_Some (Dict.del k d).
Proof.
  induction d as [|[k0 v0] d IH]; cbn; [discriminate|].
  destruct (String.eqb k0 k); [eauto|].
  intros H. destruct (IH H) as [d' ->]. eauto.
Qed.

(** A deletion removes the key and keeps the others in their order. *)
Lemma del_keys k d d' :
  NoDup (Dict.keys d) -> Dict.del k d = Some d' ->
  Dict.keys d' = List.filter (fun n => negb (String.eqb n k)) (Dict.keys d).
Proof.
  revert d'. induction d as [|[k0 v0] d IH]; intros d' Hnd Hdel; cbn in *.
  - discriminate.
  - apply NoDup_cons in Hnd. destruct Hnd as [Hk0 Hnd].
    destruct (String.eqb_spec k0 k) as [->|Hne]; cbn.
    + injection Hdel as <-. symmetry. apply forallb_filter_id.
      apply forallb_forall. intros n Hn.
      destruct (String.eqb_spec n k) as [->|]; [|reflexivity].
      apply list_elem_of_In in Hn. contradiction.
    + destruct (Dict.del k d) as [d''|] eqn:E; [|discriminate].
      injection Hdel as <-. cbn. f_equal. apply IH; [exact Hnd|reflexivity].
Qed.

Lemma del_get_ne k k' d d' :
  Dict.del k d = Some d' -> k' <> k -> Dict.get k' d' = Dict.get k' d.
Proof.
  revert d'. induction d as [|[k0 v0] d IH]; intros d' Hdel Hne; cbn in *.
  - discriminate.
  - destruct (String.eqb_spec k0 k) as [->|Hk0].
    + injection Hdel as <-.
      destruct (String.eqb_spec k k'); [congruence|reflexivity].
    + destruct (Dict.del k d) as [d''|] eqn:E; [|discriminate].
      injection Hdel as <-. cbn. rewrite (IH d'' eq_refl Hne). reflexivity.
Qed.

Lemma del_get_eq k d d' :
  NoDup (Dict.keys d) -> Dict.del k d = Some d' -> Dict.get k d' = None.
Proof.
  intros Hnd Hdel. apply get_None. rewrite (del_keys _ _ _ Hnd Hdel).
  intros H. apply list_elem_of_In, filter_In in H. destruct H as [_ H].
  rewrite String.eqb_refl in H. discriminate.
Qed.

Lemma del_NoDup k d d' :
  NoDup (Dict.keys d) -> Dict.del k d = Some d' -> NoDup (Dict.keys d').
Proof.
  intros Hnd Hdel. rewrite (del_keys _ _ _ Hnd Hdel).
  apply NoDup_ListNoDup, List.NoDup_filter, NoDup_ListNoDup. exact Hnd.
Qed.

(** Deleting a key that was just added gives the dictionary back. *)
Lemma del_set_absent k v d :
  Dict.get k d = None -> Dict.del k (Dict.set k v d) = Some d.
Proof.
  induction d as [|[k0 v0] d IH]; cbn.
  - rewrite String.eqb_refl. reflexivity.
  - destruct (String.eqb_spec k0 k) as [->|Hne]; [discriminate|].
    intros H. cbn. destruct (String.eqb_spec k0 k); [contradiction|].
    rewrite (IH H). reflexivity.
Qed.

End Dict.
End DictUnique.

(** ** DictDir: the tree under mutation *)

Module DictDirTree.
Import DictDir.

Section Tree.
Implicit Types (σ : Heap) (self : loc) (d : Node) (name : string).

Abbreviation upd d c := (Dir (mkNode (mode d) (rw d) c)).

Lemma lookup_ok σ self d name :
  σ !! self = Some (Dir d) ->
  lookup self name σ = (σ, Ok (Dict.get name (contents d))).
Proof.
  intros H. unfold lookup, bind. rewrite (DictDirFacts.self_dir_ok _ _ _ H).
  reflexivity.
Qed.

Lemma listing_ok σ self d :
  σ !! self = Some (Dir d) -> listing self σ = (σ, Ok (Dict.keys (contents d))).
Proof.
  intros H. unfold listing, opendir, readdir, bind.
  rewrite (DictDirFacts.self_dir_ok _ _ _ H). cbn.
  rewrite (DictDirFacts.self_dir_ok _ _ _ H). reflexivity.
Qed.

Lemma lookup_upd σ self d (c : Dict.t loc) (objs : list Object) :
  σ !! self = Some (Dir d) ->
  (<[self := upd d c]> (σ ++ objs)) !! self = Some (upd d c).
Proof.
  intros H. apply list_lookup_insert_eq. rewrite length_app.
  apply lookup_lt_Some in H. lia.
Qed.

(** The methods where they succeed. *)
Lemma mknod_ok σ self d name mode0 :
  σ !! self = Some (Dir d) -> rw d = true ->
  mknod self name mode0 0 σ
  = (<[self := upd d (Dict.set name (length σ) (contents d))]>
       (σ ++ [Blob (BlobFile.init [] (Some mode0) true)]),
     Ok (length σ)).
Proof.
  intros H Hrw. unfold mknod, bind, new.
  rewrite (DictDirFacts.self_dir_ok _ _ _ H), Hrw. cbn [negb Z.eqb].
  rewrite (DictDirFacts.setitem_ok _ _ _ _ _ (DictDirFacts.lookup_new _ _ _ _ H)).
  rewrite ?Hrw. reflexivity.
Qed.

Lemma mkdir_ok σ self d name mode0 :
  σ !! self = Some (Dir d) -> rw d = true ->
  mkdir self name mode0 σ
  = (<[self := upd d (Dict.set name (length σ) (contents d))]>
       (σ ++ [Dir (init [] (Some mode0) true)]),
     Ok (length σ)).
Proof.
  intros H Hrw. unfold mkdir, bind, new.
  rewrite (DictDirFacts.self_dir_ok _ _ _ H), Hrw. cbn [negb].
  rewrite (DictDirFacts.setitem_ok _ _ _ _ _ (DictDirFacts.lookup_new _ _ _ _ H)).
  rewrite ?Hrw. reflexivity.
Qed.

Lemma symlink_ok σ self d name target :
  σ !! self = Some (Dir d) -> rw d = true ->
  symlink self name target σ
  = (<[self := upd d (Dict.set name (length σ) (contents d))]>
       (σ ++ [Link (Symlink.init target 292)]),
     Ok tt).
Proof.
  intros H Hrw. unfold symlink, bind, new.
  rewrite (DictDirFacts.self_dir_ok _ _ _ H), Hrw. cbn [negb].
  rewrite (DictDirFacts.setitem_ok _ _ _ _ _ (DictDirFacts.lookup_new _ _ _ _ H)).
  rewrite ?Hrw. reflexivity.
Qed.

Lemma unlink_ok σ self d name (c : Dict.t loc) :
  σ !! self = Some (Dir d) -> rw d = true ->
  Dict.del name (contents d) = Some c ->
  unlink self name σ = (<[self := upd d c]> σ, Ok tt) /\
  rmdir self name σ = (<[self := upd d c]> σ, Ok tt).
Proof.
  intros H Hrw Hdel. unfold unlink, rmdir, delitem, bind.
  rewrite (DictDirFacts.self_dir_ok _ _ _ H), Hrw. cbn [negb].
  rewrite (DictDirFacts.self_dir_ok _ _ _ H), Hdel, ?Hrw. split; reflexivity.
Qed.

Lemma unlink_KeyError σ self d name :
  σ !! self = Some (Dir d) -> rw d = true ->
  Dict.del name (contents d) = None ->
  unlink self name σ = (σ, Raise (KeyError name)) /\
  rmdir self name σ = (σ, Raise (KeyError name)).
Proof.
  intros H Hrw Hdel. unfold unlink, rmdir, delitem, bind.
  rewrite (DictDirFacts.self_dir_ok _ _ _ H), Hrw. cbn [negb].
  rewrite (DictDirFacts.self_dir_ok _ _ _ H), Hdel, ?Hrw. split; reflexivity.
Qed.

(** A method called on something that is no directory raises at once. *)
Lemma self_dir_fails σ self :
  (forall d, σ !! self <> Some (Dir d)) ->
  exists e, self_dir self σ = (σ, Raise e).
Proof.
  intros H. unfold self_dir, deref, bind.
  destruct (σ !! self) as [[d| | |]|]; try (eexists; reflexivity).
  contradiction (H d). reflexivity.
Qed.

(** [rename] raises whatever it is given, and changes nothing. *)
Lemma rename_fails σ self old_name new_parent new_name :
  exists e, rename self old_name new_parent new_name σ = (σ, Raise e).
Proof.
  unfold rename, bind, deref.
  destruct (σ !! new_parent) as [[np| | |]|]; try (eexists; reflexivity).
  unfold self_dir, deref, bind.
  destruct (σ !! self) as [[d| | |]|]; try (eexists; reflexivity).
  cbn. destruct (negb (rw d) || negb (rw np)); eexists; reflexivity.
Qed.

(** What a call does to the store: it raises and leaves the store as it
    was, or it returns, with at most one new object, which is no directory
    with entries, and a new mapping for the directory. *)
Lemma mutate_shape self (m : mutation) σ :
  (exists e, mutate self m σ = (σ, Some e)) \/
  (exists d c objs,
     σ !! self = Some (Dir d) /\
     mutate self m σ = (<[self := upd d c]> (σ ++ objs), None) /\
     (objs = [] \/ exists o, objs = [o] /\ forall d', o = Dir d' -> contents d' = []) /\
     (NoDup (Dict.keys (contents d)) -> NoDup (Dict.keys c))).
Proof.
  destruct m as [name mode0 dev|name mode0|name|name|name target
                 |old_name new_parent new_name|name node]; cbn [mutate].
  6:{ left. destruct (rename_fails σ self old_name new_parent new_name) as [e ->].
      eexists. reflexivity. }
  all: destruct (σ !! self) as [o|] eqn:H.
  all: try (left; unfold mknod, mkdir, unlink, rmdir, symlink, link, setitem, bind;
            destruct (self_dir_fails σ self ltac:(intros d0; rewrite H; discriminate))
              as [e ->]; eexists; reflexivity).
  all: destruct o as [d| | |].
  all: try (left; unfold mknod, mkdir, unlink, rmdir, symlink, link, setitem, bind;
            destruct (self_dir_fails σ self ltac:(intros d0; rewrite H; discriminate))
              as [e ->]; eexists; reflexivity).
  - destruct (rw d) eqn:Hrw.
    + destruct (Z.eqb_spec dev 0) as [->|Hdev].
      * right. exists d, (Dict.set name (length σ) (contents d)),
        [Blob (BlobFile.init [] (Some mode0) true)].
        split; [reflexivity|]. rewrite (mknod_ok _ _ _ _ _ H Hrw).
        split; [reflexivity|]. split; [|apply DictUnique.set_NoDup].
        right. eexists. split; [reflexivity|]. discriminate.
      * left. rewrite (DictDirFacts.mknod_device _ _ _ _ _ _ H Hrw Hdev).
        eexists. reflexivity.
    + left. destruct (DictDirFacts.guarded_read_only σ self d name H Hrw)
        as (-> & _). eexists. reflexivity.
  - destruct (rw d) eqn:Hrw.
    + right. exists d, (Dict.set name (length σ) (contents d)),
        [Dir (init [] (Some mode0) true)].
      split; [reflexivity|]. rewrite (mkdir_ok _ _ _ _ _ H Hrw).
      split; [reflexivity|]. split; [|apply DictUnique.set_NoDup].
      right. eexists. split; [reflexivity|]. intros d' [= <-]. reflexivity.
    + left. destruct (DictDirFacts.guarded_read_only σ self d name H Hrw)
        as (_ & -> & _). eexists. reflexivity.
  - destruct (rw d) eqn:Hrw.
    + destruct (Dict.del name (contents d)) as [c|] eqn:Hdel.
      * right. exists d, c, []. split; [reflexivity|].
        rewrite (proj1 (unlink_ok _ _ _ _ _ H Hrw Hdel)), app_nil_r.
        split; [reflexivity|]. split; [left; reflexivity|].
        intros Hnd. apply (DictUnique.del_NoDup _ _ _ Hnd Hdel).
      * left. rewrite (proj1 (unlink_KeyError _ _ _ _ H Hrw Hdel)).
        eexists. reflexivity.
    + left. destruct (DictDirFacts.guarded_read_only σ self d name H Hrw)
        as (_ & _ & -> & _). eexists. reflexivity.
  - destruct (rw d) eqn:Hrw.
    + destruct (Dict.del name (contents d)) as [c|] eqn:Hdel.
      * right. exists d, c, []. split; [reflexivity|].
        rewrite (proj2 (unlink_ok _ _ _ _ _ H Hrw Hdel)), app_nil_r.
        split; [reflexivity|]. split; [left; reflexivity|].
        intros Hnd. apply (DictUnique.del_NoDup _ _ _ Hnd Hdel).
      * left. rewrite (proj2 (unlink_KeyError _ _ _ _ H Hrw Hdel)).
        eexists. reflexivity.
    + left. destruct (DictDirFacts.guarded_read_only σ self d name H Hrw)
        as (_ & _ & _ & -> & _). eexists. reflexivity.
  - destruct (rw d) eqn:Hrw.
    + right. exists d, (Dict.set name (length σ) (contents d)),
        [Link (Symlink.init target 292)].
      split; [reflexivity|]. rewrite (symlink_ok _ _ _ _ _ H Hrw).
      split; [reflexivity|]. split; [|apply DictUnique.set_NoDup].
      right. eexists. split; [reflexivity|]. discriminate.
    + left. destruct (DictDirFacts.guarded_read_only σ self d name H Hrw)
        as (_ & _ & _ & _ & ->). eexists. reflexivity.
  - right. exists d, (Dict.set name node (contents d)), [].
    split; [reflexivity|]. unfold link.
    rewrite (DictDirFacts.setitem_ok _ _ _ _ _ H), app_nil_r.
    split; [reflexivity|]. split; [left; reflexivity|apply DictUnique.set_NoDup].
Qed.

(** X15: every mutating call keeps the names of every directory of the
    tree unique, whether it returns or raises. *)
Theorem mutate_keeps_unique_names self (m : mutation) σ :
  unique_names σ -> unique_names (mutate self m σ).1.
Proof.
  intros Hu. destruct (mutate_shape self m σ)
    as [[e ->]|(d & c & objs & H & -> & Hobjs & Hnd)]; [exact Hu|].
  cbn [fst]. intros l d' Hl.
  destruct (decide (l = self)) as [->|Hne].
  - rewrite (lookup_upd _ _ _ _ _ H) in Hl. injection Hl as <-.
    apply Hnd, (Hu _ _ H).
  - rewrite list_lookup_insert_ne in Hl by congruence.
    destruct (decide (l < length σ)%nat) as [Hlt|Hge].
    + rewrite lookup_app_l in Hl by exact Hlt. apply (Hu _ _ Hl).
    + rewrite lookup_app_r in Hl by lia.
      destruct Hobjs as [->|(o & -> & Ho)]; [rewrite lookup_nil in Hl; discriminate|].
      destruct (l - length σ)%nat; [|discriminate Hl].
      injection Hl as ->. rewrite (Ho d' eq_refl). apply NoDup_nil_2.
Qed.

(** X16: a mutating call on a directory touches no other object that was
    there: every other object of the store is as before, at most one object
    is new, and the directory keeps its mode and its read-write flag. *)
Theorem mutate_frame self (m : mutation) σ :
  (forall l, l <> self -> (l < length σ)%nat ->
             (mutate self m σ).1 !! l = σ !! l) /\
  (length σ <= length (mutate self m σ).1 <= length σ + 1)%nat /\
  (forall d, σ !! self = Some (Dir d) ->
             exists c, (mutate self m σ).1 !! self
                       = Some (Dir (mkNode (mode d) (rw d) c))).
Proof.
  destruct (mutate_shape self m σ)
    as [[e ->]|(d & c & objs & H & -> & Hobjs & _)]; cbn [fst].
  - split; [reflexivity|]. split; [lia|].
    intros d H. exists (contents d). rewrite H. destruct d; reflexivity.
  - split.
    { intros l Hne Hlt. rewrite list_lookup_insert_ne by congruence.
      apply lookup_app_l, Hlt. }
    split.
    { rewrite length_insert, length_app.
      destruct Hobjs as [->|(o & -> & _)]; cbn; lia. }
    intros d0 H0. rewrite H in H0. injection H0 as <-.
    exists c. apply (lookup_upd _ _ _ _ _ H).
Qed.

(** X17: a mutating call that raises has changed nothing. *)
Theorem mutate_failure_atomic self (m : mutation) σ σ' (e : exn) :
  mutate self m σ = (σ', Some e) -> σ' = σ.
Proof.
  intros Hm. destruct (mutate_shape self m σ)
    as [[e' He]|(d & c & objs & _ & He & _)];
    rewrite He in Hm; [|discriminate Hm].
  injection Hm as <- _. reflexivity.
Qed.

Lemma added_set σ σ' self d name (n : loc) :
  σ !! self = Some (Dir d) ->
  σ' !! self = Some (upd d (Dict.set name n (contents d))) ->
  added σ σ' self name n.
Proof.
  intros H H'. unfold added.
  rewrite (lookup_ok _ _ _ _ H), (lookup_ok _ _ _ _ H'). cbn [snd contents].
  split; [rewrite DictFacts.get_set_eq; reflexivity|]. split.
  - intros k Hk. rewrite (lookup_ok _ _ _ _ H), (lookup_ok _ _ _ _ H').
    cbn [snd contents]. rewrite DictFacts.get_set_ne by exact Hk. reflexivity.
  - intros [= Habs]. exists (Dict.keys (contents d)).
    rewrite (listing_ok _ _ _ H), (listing_ok _ _ _ H'). cbn [snd contents].
    rewrite (DictFacts.keys_set_absent _ _ _ Habs). split; reflexivity.
Qed.

(** X18: on a writable directory, [mknod] (of a regular file), [mkdir],
    [symlink] and [link] add the entry: afterwards [lookup] of the name
    returns the node (for the first three a new object: a writable, empty
    file or directory with the permission bits of [mode], or the symlink to
    the target), [lookup] of every other name is as before, and a name that
    was not there is listed last. *)
Theorem create_adds_entry σ self d name :
  σ !! self = Some (Dir d) -> rw d = true ->
  (forall mode0, exists σ' n,
      mknod self name mode0 0 σ = (σ', Ok n) /\ σ !! n = None /\
      σ' !! n = Some (Blob (BlobFile.mkNode (Z.land mode0 511) true [] None)) /\
      added σ σ' self name n) /\
  (forall mode0, exists σ' n,
      mkdir self name mode0 σ = (σ', Ok n) /\ σ !! n = None /\
      σ' !! n = Some (Dir (mkNode (Z.land mode0 511) true [])) /\
      added σ σ' self name n) /\
  (forall target, exists σ' n,
      symlink self name target σ = (σ', Ok tt) /\ σ !! n = None /\
      σ' !! n = Some (Link (Symlink.mkNode 292 target)) /\
      added σ σ' self name n) /\
  (forall node, exists σ',
      link self name node σ = (σ', Ok tt) /\ added σ σ' self name node).
Proof.
  intros H Hrw.
  pose proof (lookup_lt_Some _ _ _ H) as Hlt.
  assert (Hfresh : σ !! length σ = None) by (apply lookup_ge_None; lia).
  assert (Hnew : forall (o : Object) c,
            (<[self := upd d c]> (σ ++ [o])) !! length σ = Some o).
  { intros o c. rewrite list_lookup_insert_ne by lia.
    rewrite lookup_app_r by lia. rewrite Nat.sub_diag. reflexivity. }
  split; [|split; [|split]].
  - intros mode0. eexists _, (length σ). rewrite (mknod_ok _ _ _ _ _ H Hrw).
    split; [reflexivity|]. split; [exact Hfresh|]. split; [apply Hnew|].
    apply (added_set _ _ _ _ _ _ H), (lookup_upd _ _ _ _ _ H).
  - intros mode0. eexists _, (length σ). rewrite (mkdir_ok _ _ _ _ _ H Hrw).
    split; [reflexivity|]. split; [exact Hfresh|]. split; [apply Hnew|].
    apply (added_set _ _ _ _ _ _ H), (lookup_upd _ _ _ _ _ H).
  - intros target. eexists _, (length σ). rewrite (symlink_ok _ _ _ _ _ H Hrw).
    split; [reflexivity|]. split; [exact Hfresh|]. split; [apply Hnew|].
    apply (added_set _ _ _ _ _ _ H), (lookup_upd _ _ _ _ _ H).
  - intros node. eexists. unfold link.
    rewrite (DictDirFacts.setitem_ok _ _ _ _ _ H).
    split; [reflexivity|]. apply (added_set _ _ _ _ _ _ H).
    pose proof (lookup_upd σ self d (Dict.set name node (contents d)) [] H) as Hu.
    rewrite app_nil_r in Hu. exact Hu.
Qed.

(** X19: on a writable directory with unique names, [unlink] and [rmdir]
    of a name that is there both return and remove the entry, whatever the
    name maps to (a file, a symlink, a directory with entries): [lookup] of
    the name finds nothing, the other names are found and listed as before,
    in their order, and no object of the store is removed or changed but the
    directory itself. *)
Theorem remove_present σ self d name (n : loc) :
  σ !! self = Some (Dir d) -> rw d = true ->
  NoDup (Dict.keys (contents d)) ->
  Dict.get name (contents d) = Some n ->
  exists σ',
    unlink self name σ = (σ', Ok tt) /\
    rmdir self name σ = (σ', Ok tt) /\
    removed σ σ' self name /\
    length σ' = length σ /\
    (forall l, l <> self -> σ' !! l = σ !! l).
Proof.
  intros H Hrw Hnd Hget.
  destruct (DictUnique.del_Some _ _ _ Hget) as [c Hdel].
  destruct (unlink_ok _ _ _ _ _ H Hrw Hdel) as [Hu Hr].
  exists (<[self := upd d c]> σ). split; [exact Hu|]. split; [exact Hr|].
  assert (H' : (<[self := upd d c]> σ) !! self = Some (upd d c)).
  { pose proof (lookup_upd σ self d c [] H) as E. rewrite app_nil_r in E. exact E. }
  split.
  - unfold removed.
    rewrite (lookup_ok _ _ _ _ H'). cbn [snd contents].
    rewrite (DictUnique.del_get_eq _ _ _ Hnd Hdel).
    split; [reflexivity|]. split.
    + intros k Hk. rewrite (lookup_ok _ _ _ _ H), (lookup_ok _ _ _ _ H').
      cbn [snd contents]. rewrite (DictUnique.del_get_ne _ _ _ _ Hdel Hk).
      reflexivity.
    + exists (Dict.keys (contents d)).
      rewrite (listing_ok _ _ _ H), (listing_ok _ _ _ H'). cbn [snd contents].
      rewrite (DictUnique.del_keys _ _ _ Hnd Hdel). split; reflexivity.
  - split; [apply length_insert|].
    intros l Hl. apply list_lookup_insert_ne. congruence.
Qed.

(** X20: on a writable directory, [mknod] of a name that is not there
    followed by [unlink] of the name gives the mapping back as it was. *)
Theorem mknod_then_unlink σ self d name mode0 :
  σ !! self = Some (Dir d) -> rw d = true ->
  Dict.get name (contents d) = None ->
  exists σ',
    (let* n := mknod self name mode0 0 in
     let* _ := unlink self name in
     ret n) σ = (σ', Ok (length σ)) /\
    mapping σ' self = mapping σ self.
Proof.
  intros H Hrw Habs. unfold bind. rewrite (mknod_ok _ _ _ _ _ H Hrw).
  set (o := Blob _).
  pose proof (lookup_upd σ self d (Dict.set name (length σ) (contents d)) [o] H)
    as H1.
  destruct (unlink_ok _ self (mkNode (mode d) (rw d)
                                (Dict.set name (length σ) (contents d)))
              name (contents d) H1 Hrw
              (DictUnique.del_set_absent _ _ _ Habs)) as [-> _].
  eexists. split; [reflexivity|].
  unfold mapping. rewrite H. rewrite list_lookup_insert_eq; [reflexivity|].
  rewrite length_insert, length_app. apply lookup_lt_Some in H. lia.
Qed.

(** X21: [lookup] and the listing of a directory agree: [lookup] finds a
    node for a name exactly when a new handle lists the name. *)
Theorem lookup_iff_listed σ self d :
  σ !! self = Some (Dir d) ->
  exists ns,
    (listing self σ).2 = Ok ns /\
    forall name,
      (exists n, (lookup self name σ).2 = Ok (Some n)) <-> name ∈ ns.
Proof.
  intros H. exists (Dict.keys (contents d)).
  rewrite (listing_ok _ _ _ H). split; [reflexivity|].
  intros name. rewrite (lookup_ok _ _ _ _ H). cbn [snd].
  rewrite <- DictUnique.get_Some_keys. split.
  - intros [n [= Hn]]. eauto.
  - intros [n Hn]. exists n. rewrite Hn. reflexivity.
Qed.

End Tree.

(** A tree with a writable root, a file and a directory with one entry. *)
Lemma mutate_keeps_unique_names_witness :
  unique_names
    (mutate 0 (DoMknod "b" 420 0)
       [Dir (init [("a", 1%nat)] None true); Other]).1.
Proof.
  apply (mutate_keeps_unique_names 0%nat (DoMknod "b" 420 0)
           [Dir (init [("a", 1%nat)] None true); Other]).
  intros l d Hl. destruct l as [|[|l]]; [|discriminate Hl..].
  injection Hl as <-. cbn. apply NoDup_singleton.
Defined.

Lemma mutate_failure_atomic_witness :
  mutate 0 (DoUnlink "missing") [Dir (init [] None true)]
  = ([Dir (init [] None true)], Some (KeyError "missing")) /\
  [Dir (init [] None true)] = [Dir (init [] None true)].
Proof.
  split; [reflexivity|].
  apply (mutate_failure_atomic 0%nat (DoUnlink "missing")
           [Dir (init [] None true)] [Dir (init [] None true)]
           (KeyError "missing")).
  reflexivity.
Defined.

Lemma create_adds_entry_witness :
  let σ := [Dir (init [("a", 1%nat)] None true); Other] in
  (forall mode0, exists σ' n,
      mknod 0 "b" mode0 0 σ = (σ', Ok n) /\ σ !! n = None /\
      σ' !! n = Some (Blob (BlobFile.mkNode (Z.land mode0 511) true [] None)) /\
      added σ σ' 0 "b" n) /\
  (forall mode0, exists σ' n,
      mkdir 0 "b" mode0 σ = (σ', Ok n) /\ σ !! n = None /\
      σ' !! n = Some (Dir (mkNode (Z.land mode0 511) true [])) /\
      added σ σ' 0 "b" n) /\
  (forall target, exists σ' n,
      symlink 0 "b" target σ = (σ', Ok tt) /\ σ !! n = None /\
      σ' !! n = Some (Link (Symlink.mkNode 292 target)) /\
      added σ σ' 0 "b" n) /\
  (forall node, exists σ',
      link 0 "b" node σ = (σ', Ok tt) /\ added σ σ' 0 "b" node).
Proof.
  apply (create_adds_entry [Dir (init [("a", 1%nat)] None true); Other] 0%nat
           (init [("a", 1%nat)] None true) "b"); reflexivity.
Defined.

Lemma remove_present_witness :
  let σ := [Dir (init [("a", 1%nat); ("b", 2%nat)] None true);
            Dir (init [("x", 2%nat)] None false); Other] in
  exists σ',
    unlink 0 "a" σ = (σ', Ok tt) /\
    rmdir 0 "a" σ = (σ', Ok tt) /\
    removed σ σ' 0 "a" /\
    length σ' = length σ /\
    (forall l, l <> 0%nat -> σ' !! l = σ !! l).
Proof.
  apply (remove_present
           [Dir (init [("a", 1%nat); ("b", 2%nat)] None true);
            Dir (init [("x", 2%nat)] None false); Other] 0%nat
           (init [("a", 1%nat); ("b", 2%nat)] None true) "a" 1%nat);
    [reflexivity | reflexivity | | reflexivity].
  cbn. apply NoDup_cons_2; [|apply NoDup_singleton].
  intros Hin. apply list_elem_of_singleton in Hin. discriminate Hin.
Defined.

Lemma mknod_then_unlink_witness :
  let σ := [Dir (init [("a", 1%nat)] None true); Other] in
  exists σ',
    (let* n := mknod 0 "b" 420 0 in
     let* _ := unlink 0 "b" in
     ret n) σ = (σ', Ok (length σ)) /\
    mapping σ' 0 = mapping σ 0.
Proof.
  apply (mknod_then_unlink [Dir (init [("a", 1%nat)] None true); Other] 0%nat
           (init [("a", 1%nat)] None true) "b" 420); reflexivity.
Defined.

Lemma lookup_iff_listed_witness :
  let σ := [Dir (init [("a", 1%nat)] None false); Other] in
  exists ns,
    (listing 0 σ).2 = Ok ns /\
    forall name,
      (exists n, (lookup 0 name σ).2 = Ok (Some n)) <-> name ∈ ns.
Proof.
  apply (lookup_iff_listed [Dir (init [("a", 1%nat)] None false); Other] 0%nat
           (init [("a", 1%nat)] None false)).
  reflexivity.
Defined.

End DictDirTree.

(** ** getattr: file type and permission bits *)

Module AttrFacts.
Import Attr.

Lemma land_511_range (m : Z) : 0 <= Z.land m 511 <= 511.
Proof.
  change 511 with (Z.ones 9) at 1 2. rewrite Z.land_ones by lia.
  pose proof (Z.mod_pos_bound m (2 ^ 9) ltac:(lia)). lia.
Qed.

Lemma mode_bits_all : forallb (fun n => mode_bits_ok (Z.of_nat n)) (seq 0 512) = true.
Proof. vm_compute. reflexivity. Qed.

Lemma mode_bits (t m : Z) :
  t = S_IFDIR \/ t = S_IFREG \/ t = S_IFLNK ->
  mode_is t (Z.land m 511) (Z.lor t (Z.land m 511)).
Proof.
  intros Ht. pose proof (land_511_range m) as Hr.
  set (p := Z.land m 511) in *.
  pose proof mode_bits_all as Hall. rewrite forallb_forall in Hall.
  specialize (Hall (Z.to_nat p)).
  rewrite Z2Nat.id in Hall by lia.
  assert (Hok : mode_bits_ok p = true).
  { apply Hall. apply in_seq. lia. }
  unfold mode_bits_ok in Hok. cbn [forallb] in Hok.
  rewrite !andb_true_iff, !Z.eqb_eq in Hok.
  unfold mode_is, S_IFMT, S_IMODE.
  destruct Ht as [Ht|[Ht|Ht]]; subst t; repeat split; tauto || lia.
Qed.

(** X22: whatever [int] is passed as [mode] to the constructor of a
    [BlobFile], a [DictDir] or a [Symlink] (a mode with file-type bits, a
    negative number), [getattr] reports a mode whose file type is exactly
    regular file, directory or symbolic link, and whose permission bits are
    [mode & 0o777]; for a [BlobFile] the size is the one of the committed
    data when no session is open. *)
Theorem getattr_type_and_permissions (m : Z) :
  (forall data rw,
     let f := BlobFile.init data (Some m) rw in
     exists st,
       file_getattr (BlobFile.mkStore f [] []) = (BlobFile.mkStore f [] [], Ok st) /\
       mode_is S_IFREG (Z.land m 511) (st_mode st) /\
       st_size st = Some (len data)) /\
  (forall contents rw,
     mode_is S_IFDIR (Z.land m 511)
       (st_mode (dir_getattr (DictDir.init contents (Some m) rw)))) /\
  (forall target,
     mode_is S_IFLNK (Z.land m 511)
       (st_mode (symlink_getattr (Symlink.init target m)))).
Proof.
  split; [|split].
  - intros data rw f. eexists. split; [reflexivity|]. cbn [st_mode st_size].
    split; [apply mode_bits; auto|reflexivity].
  - intros contents rw. apply mode_bits. auto.
  - intros target. apply mode_bits. auto.
Qed.

(** The file that [mknod] creates for the mode [0o100644]. *)
Example mknod_mode_with_type_bits :
  let σ := (DictDir.mknod 0 "f" 33188 0 [DictDir.Dir (DictDir.init [] None true)]).1 in
  σ !! 1%nat = Some (DictDir.Blob (BlobFile.mkNode 420 true [] None)) /\
  Z.lor S_IFREG 420 = 33188.
Proof. split; reflexivity. Qed.

End AttrFacts.
